(** * Local document retrieval pipeline (document_research_agent.py)

    A shallow embedding of the ingestion -> chunking -> embedding ->
    indexing -> retrieval pipeline of [employees/r&d/document_research_agent.py]
    and the properties its specification states about it.

    External collaborators are interfaces of the development:
    - [Encoding]: the tiktoken encoder ([enc.encode], [enc.decode]);
    - [Float32]: the scalars held by the FAISS index, with the inner product
      FAISS computes on them and the order by which it ranks them;
    - [EmbeddingClient]: the embedding provider, a stateful service that
      answers or raises.
    The file system, the environment and the standard output are explicit
    state ([World]); a Python exception is the left injection of a sum. *)

From Stdlib Require Import ZArith Lia Ascii.
From Stdlib Require String.
From stdpp Require Import base option list strings gmap pretty sorting.

Local Open Scope Z_scope.

(** ** Python sequences and strings *)

(** [l[start:stop]] index normalisation: a negative bound counts from the
    end, and every bound is clamped to [0, len(l)]. *)
Definition py_clamp (n x : Z) : Z :=
  if x <? 0 then Z.max (x + n) 0 else Z.min x n.

(** The slice [l[start:stop]] (step 1). *)
Definition py_slice {A : Type} (l : list A) (start stop : Z) : list A :=
  let n := Z.of_nat (length l) in
  let lo := py_clamp n start in
  let hi := py_clamp n stop in
  take (Z.to_nat (hi - lo)) (drop (Z.to_nat lo) l).

(** [l[start:]]. *)
Definition py_slice_from {A : Type} (l : list A) (start : Z) : list A :=
  py_slice l start (Z.of_nat (length l)).

(** [len(l)]. *)
Definition len {A : Type} (l : list A) : Z := Z.of_nat (length l).

Definition chars (s : string) : list ascii := String.list_ascii_of_string s.
Definition of_chars (l : list ascii) : string := String.string_of_list_ascii l.

(** [p.rfind(c)] on the characters of [p]: the last index of [c], or -1. *)
Fixpoint rfind_nat (c : ascii) (l : list ascii) : option nat :=
  match l with
  | [] => None
  | x :: l' =>
      match rfind_nat c l' with
      | Some i => Some (S i)
      | None => if decide (x = c) then Some O else None
      end
  end.

Definition rfind (c : ascii) (l : list ascii) : Z :=
  from_option Z.of_nat (-1) (rfind_nat c l).

(** A Python [str] is modelled by its UTF-8 encoding: a [string] of the
    model is the sequence of its bytes, and a character is one to four of
    them.  The characters the pipeline tests for ("/", ".", the letters of
    the extensions, ASCII whitespace) are single bytes. *)
Definition byte (c : ascii) : Z := Z.of_nat (nat_of_ascii c).

(** [str.isspace] on a character of one byte: U+0009-U+000D and
    U+001C-U+0020. *)
Definition py_isspace (c : ascii) : bool :=
  let n := byte c in
  (9 <=? n) && (n <=? 13) || (28 <=? n) && (n <=? 32).

(** The number of bytes of the whitespace character that [l] starts with,
    0 when it starts with none.  Whitespace is what [str.strip()] removes,
    the characters on which [str.isspace] holds: besides the single bytes of
    [py_isspace], U+0085 and U+00A0 (C2 85, C2 A0), U+1680 (E1 9A 80),
    U+2000-U+200A, U+2028, U+2029, U+202F (E2 80 80-8A, A8, A9, AF),
    U+205F (E2 81 9F) and U+3000 (E3 80 80). *)
Definition space_width (l : list ascii) : nat :=
  match l with
  | [] => O
  | c :: l1 =>
      if py_isspace c then 1%nat
      else
        match l1 with
        | [] => O
        | b :: l2 =>
            if (byte c =? 194) && ((byte b =? 133) || (byte b =? 160)) then 2%nat
            else
              match l2 with
              | [] => O
              | a :: _ =>
                  if (byte c =? 225) && (byte b =? 154) && (byte a =? 128) then 3%nat
                  else if (byte c =? 226) && (byte b =? 128) &&
                          ((128 <=? byte a) && (byte a <=? 138) ||
                           (byte a =? 168) || (byte a =? 169) || (byte a =? 175))
                  then 3%nat
                  else if (byte c =? 226) && (byte b =? 129) && (byte a =? 159) then 3%nat
                  else if (byte c =? 227) && (byte b =? 128) && (byte a =? 128) then 3%nat
                  else 0%nat
              end
        end
  end.

(** The same for the whitespace character that a text ends with, on the
    reversed bytes [r] of the text: in UTF-8 a character starts where its
    lead byte stands, so the last one, two or three bytes that spell a
    whitespace character are that character. *)
Definition space_width_end (r : list ascii) : nat :=
  match r with
  | [] => O
  | c :: r1 =>
      if py_isspace c then 1%nat
      else
        match r1 with
        | [] => O
        | b :: r2 =>
            if (space_width [b; c] =? 2)%nat then 2%nat
            else
              match r2 with
              | [] => O
              | a :: _ => if (space_width [a; b; c] =? 3)%nat then 3%nat else 0%nat
              end
        end
  end.

(** Dropping whitespace characters from the front while there is one;
    [fuel] bounds the number of characters dropped. *)
Fixpoint strip_front (width : list ascii → nat) (fuel : nat) (l : list ascii)
    : list ascii :=
  match fuel with
  | O => l
  | S fuel' =>
      match width l with
      | O => l
      | n => strip_front width fuel' (drop n l)
      end
  end.

(** [s.lstrip()] and [s.rstrip()] on the bytes of [s]. *)
Definition lstrip_chars (l : list ascii) : list ascii :=
  strip_front space_width (length l) l.

Definition rstrip_chars (l : list ascii) : list ascii :=
  reverse (strip_front space_width_end (length l) (reverse l)).

(** [s.strip()]. *)
Definition strip (s : string) : string :=
  of_chars (rstrip_chars (lstrip_chars (chars s))).

Definition lower_char (c : ascii) : ascii :=
  let n := nat_of_ascii c in
  if ((65 <=? n) && (n <=? 90))%nat then ascii_of_nat (n + 32) else c.

(** [s.lower()]. *)
Definition lower (s : string) : string := of_chars (lower_char <$> chars s).

(** [os.path.basename(p)] (posixpath): [p[p.rfind('/') + 1:]]. *)
Definition basename (p : string) : string :=
  let l := chars p in
  of_chars (py_slice_from l (rfind "/" l + 1)).

(** [os.path.splitext(p)] (posixpath, through [genericpath._splitext]): the
    extension starts at the last dot of the last path component, unless
    only dots precede it there. *)
Definition splitext (p : string) : string * string :=
  let l := chars p in
  let sepIndex := rfind "/" l in
  let dotIndex := rfind "." l in
  if sepIndex <? dotIndex then
    let filenameIndex := sepIndex + 1 in
    if forallb (λ c, bool_decide (c = "."%char)) (py_slice l filenameIndex dotIndex)
    then (p, "")
    else (of_chars (py_slice l 0 dotIndex), of_chars (py_slice_from l dotIndex))
  else (p, "").

(** The newline character. *)
Definition nl : string := String "010" "".

(** [sep.join(parts)]. *)
Fixpoint join (sep : string) (parts : list string) : string :=
  match parts with
  | [] => ""
  | [p] => p
  | p :: rest => p +:+ sep +:+ join sep rest
  end.

(** ** Exceptions *)

(** A raised exception, with the text [str(e)] that the handlers print.
    The texts of exceptions raised inside libraries are the libraries' own;
    the model fixes representatives. *)
Record exn := Exception { str : string }.

(** [assert cond] inside a library wrapper. *)
Definition AssertionError : exn := Exception "".

Definition guard_or (e : exn) (b : bool) : exn + () :=
  if b then inr () else inl e.

Global Instance sum_exn_bind : MBind (sum exn) := λ A B k r,
  match r with inl e => inl e | inr a => k a end.
Global Instance sum_exn_ret : MRet (sum exn) := λ A a, inr a.

(** ** External interfaces *)

(** [enc = tiktoken.get_encoding("cl100k_base")].  [enc.encode] is taken to
    return on every text (the texts hold no special-token literal, on
    which tiktoken raises). *)
Class Encoding := {
  enc_encode : string → list Z;
  enc_decode : list Z → string
}.

(** The float32 scalars of numpy and FAISS.  [inner_product x y] is the
    score FAISS reports for a stored row [y] against a query [x],
    [f_leb] the order it ranks scores by, [f_lowest] the score that pads a
    result row, [fmt_3f] the rendering [f"{x:.3f}"]. *)
Class Float32 := {
  F : Type;
  inner_product : list F → list F → F;
  f_leb : F → F → bool;
  f_lowest : F;
  fmt_3f : F → string
}.

(** [client.embeddings.create(model="text-embedding-3-small", input=text)]
    followed by [.data[0].embedding]: the provider, in state [P], answers
    with a vector or raises, and moves to its next state. *)
Class EmbeddingClient `{Float32} := {
  P : Type;
  embeddings_create : P → string → (exn + list F) * P
}.

(** ** Step 3 of the source: the chunker *)

(** The [while] loop of [chunk_text] (lines 185-190).  The loop state is
    the offset [i] and the list [chunks]; [emit i chunk] is what the body
    appends for the slice cut at offset [i].  [chunk_text] appends
    [enc.decode(chunk)]; the same loop with [emit := pair] records every
    window with the offset it was cut at.  The loop runs on [fuel]:
    [None] means the fuel ran out before [i] reached [len(tokens)]. *)
Fixpoint chunk_loop {A : Type} (emit : Z → list Z → A) (tokens : list Z)
    (chunk_size chunk_overlap : Z) (fuel : nat) (i : Z) (chunks : list A)
    : option (list A) :=
  match fuel with
  | O => None
  | S fuel' =>
      if i <? len tokens then
        let chunk := py_slice tokens i (i + chunk_size) in
        chunk_loop emit tokens chunk_size chunk_overlap fuel'
          (i + (chunk_size - chunk_overlap)) (chunks ++ [emit i chunk])
      else Some chunks
  end.

(** The windows cut by the loop: each slice with its start offset. *)
Definition chunk_windows (tokens : list Z) (chunk_size chunk_overlap : Z)
    (fuel : nat) : option (list (Z * list Z)) :=
  chunk_loop pair tokens chunk_size chunk_overlap fuel 0 [].

Section Chunker.
Context `{!Encoding}.

Definition chunk_text_fuel (fuel : nat) (text : string)
    (chunk_size chunk_overlap : Z) : option (list string) :=
  let tokens := enc_encode text in
  chunk_loop (λ _ chunk, enc_decode chunk) tokens chunk_size chunk_overlap fuel 0 [].

(** [chunk_text(text, chunk_size, chunk_overlap)]; one iteration more than
    there are tokens is enough whenever the loop terminates at all
    ([chunk_loop_diverges], [chunk_loop_closed]). *)
Definition chunk_text (text : string) (chunk_size chunk_overlap : Z)
    : option (list string) :=
  chunk_text_fuel (S (length (enc_encode text))) text chunk_size chunk_overlap.

(** [chunk_text(text)] with the defaults of the signature. *)
Definition chunk_text_default (text : string) : option (list string) :=
  chunk_text text 600 100.
End Chunker.

(** ** Step 2 of the source: the local vector store *)

(** One element of [doc_meta]: the dict [{"text_chunk": .., "source": ..}]. *)
Record Meta := { text_chunk : string; source : string }.

(** One element of the loader's result: [{"raw_content": .., "url": ..}]. *)
Record Doc := { raw_content : string; url : string }.

Section VectorStore.
Context `{!Float32}.

(** [np.array(rows, dtype="float32")] for a list of lists: a rectangular
    array, or [ValueError] on ragged rows. *)
Definition np_array (rows : list (list F)) : exn + list (list F) :=
  match rows with
  | [] => inr []
  | r :: rest =>
      if forallb (λ r', bool_decide (length r' = length r)) rest then inr rows
      else inl (Exception "setting an array element with a sequence.")
  end.

(** [n, d = x.shape] of a two-dimensional array with at least one row. *)
Definition array_d (x : list (list F)) : exn + Z :=
  match x with
  | r :: _ => inr (len r)
  | [] => inl (Exception "not enough values to unpack (expected 2, got 1)")
  end.

(** [faiss.IndexFlatIP]: the dimension and the stored rows, in insertion
    order; the label of a row is its position. *)
Record IndexFlatIP := { d : Z; xb : list (list F) }.

Definition ntotal (ix : IndexFlatIP) : Z := len (xb ix).

(** [faiss.IndexFlatIP(dimension)], for a dimension that fits the C [int]
    in which FAISS holds [d] (the program's own is 1536); beyond it the
    library wraps the value or refuses it, which is not modelled. *)
Definition IndexFlatIP_new (dimension : Z) : IndexFlatIP :=
  {| d := dimension; xb := [] |}.

(** [index.add(x)]: the wrapper asserts [x.shape[1] == self.d]. *)
Definition faiss_add (ix : IndexFlatIP) (x : list (list F)) : exn + IndexFlatIP :=
  xd ← array_d x;
  guard_or AssertionError (bool_decide (xd = d ix));;
  mret {| d := d ix; xb := xb ix ++ x |}.

(** A scored label ranks before another when its score is not lower. *)
Definition score_ge (a b : F * Z) : Prop := Is_true (f_leb b.1 a.1).

Global Instance score_ge_dec : RelDecision score_ge := λ a b, Is_true_dec _.

(** Every stored row with its score against [q], best first. *)
Definition ranked (ix : IndexFlatIP) (q : list F) : list (F * Z) :=
  merge_sort score_ge (imap (λ i v, (inner_product q v, Z.of_nat i)) (xb ix)).

(** [index.search(x, k)] for a one-row query: the wrapper asserts
    [x.shape[1] == self.d] and [k > 0]; the result rows [D[0]] and [I[0]]
    have length [k], the best [k] rows first and label -1 where the index
    has fewer than [k] rows. *)
Definition faiss_search (ix : IndexFlatIP) (q : list F) (k : Z)
    : exn + (list F * list Z) :=
  guard_or AssertionError (bool_decide (len q = d ix));;
  guard_or AssertionError (0 <? k);;
  let top := take (Z.to_nat k) (ranked ix q) in
  let row := top ++ replicate (Z.to_nat k - length top) (f_lowest, -1) in
  mret (row.*1, row.*2).

(** The dataclass [LocalVectorStore].  [index] is set by [__post_init__]
    before the object is handed out, so it is never [None] in a store. *)
Record LocalVectorStore := {
  dimension : Z;
  index_path : string;
  index : IndexFlatIP;
  doc_meta : list Meta
}.

(** One element of the list [search] returns. *)
Record Hit := { score : F; text : string; hit_source : string }.

(** [add_embeddings(self, embeddings, metas)]; the store is returned as
    the call leaves it, and an exception leaves it as it was. *)
Definition add_embeddings (self : LocalVectorStore)
    (embeddings : list (list F)) (metas : list Meta) : exn + LocalVectorStore :=
  match embeddings with
  | [] => mret self
  | _ =>
      arr ← np_array embeddings;
      ix ← faiss_add (index self) arr;
      mret {| dimension := dimension self; index_path := index_path self;
              index := ix; doc_meta := doc_meta self ++ metas |}
  end.

(** The [for dist, i in zip(distances[0], idxs[0])] loop of [search]. *)
Fixpoint search_loop (doc_meta : list Meta) (row : list (F * Z))
    (results : list Hit) : list Hit :=
  match row with
  | [] => results
  | (dist, i) :: row' =>
      if (i <? 0) || (len doc_meta <=? i) then search_loop doc_meta row' results
      else
        match doc_meta !! Z.to_nat i with
        | Some m =>
            search_loop doc_meta row'
              (results ++ [{| score := dist; text := text_chunk m;
                              hit_source := source m |}])
        | None => search_loop doc_meta row' results
        end
  end.

(** [search(self, embedding, k)]; [np.array([embedding])] is the one-row
    array whose row is [embedding]. *)
Definition search (self : LocalVectorStore) (embedding : list F) (k : Z)
    : exn + list Hit :=
  '(distances, idxs) ← faiss_search (index self) embedding k;
  mret (search_loop (doc_meta self) (zip distances idxs) []).

(** What a path of the working directory holds: a serialised flat
    inner-product index ([faiss.write_index]), a JSON list of metadata
    dicts ([json.dump]), or content that is neither an index nor JSON.
    These are the files the program writes and files foreign to it; a file
    holding JSON of another shape, which [json.load] would return as it is,
    or an index of another class, which [faiss.read_index] would return,
    has no counterpart here. *)
Inductive File :=
  | FaissFile (ix : IndexFlatIP)
  | JsonFile (metas : list Meta)
  | OtherFile (content : string).

(** [faiss.read_index(path)]. *)
Definition read_index (fs : gmap string File) (path : string) : exn + IndexFlatIP :=
  match fs !! path with
  | Some (FaissFile ix) => inr ix
  | Some _ => inl (Exception ("Error: read_index: " +:+ path +:+ " is not an index"))
  | None => inl (Exception ("Error: could not open " +:+ path +:+ " for reading"))
  end.

(** [open(path, "r", encoding="utf-8")] and [json.load]. *)
Definition json_load (fs : gmap string File) (path : string) : exn + list Meta :=
  match fs !! path with
  | Some (JsonFile m) => inr m
  | Some _ => inl (Exception "Expecting value: line 1 column 1 (char 0)")
  | None => inl (Exception ("[Errno 2] No such file or directory: '" +:+ path +:+ "'"))
  end.
End VectorStore.

Arguments IndexFlatIP {_}.
Arguments LocalVectorStore {_}.
Arguments Hit {_}.
Arguments File {_}.

(** ** The world the pipeline runs in *)

(** A path matched by [glob.glob(os.path.join(path, "**/*.*"), recursive=True)]
    with what reading it yields: [fe_read] for
    [open(fp, "r", encoding="utf-8").read()], [fe_pages] for [fitz.open(fp)]
    and [page.get_text()] over its pages. *)
Record FileEntry := {
  fe_path : string;
  fe_read : exn + string;
  fe_pages : exn + list string
}.

(** [tangent.types.Result]: only [value] is read by the caller of the tool. *)
Record Result := { value : string }.

Section Pipeline.
Context `{!Encoding, !Float32, !EmbeddingClient}.

(** - [fs]: the files of the working directory (the backing files);
    - [dirs]: for each directory, the paths the recursive glob matches in
      it, in enumeration order;
    - [fitz_installed]: whether [import fitz] succeeds;
    - [environ]: [os.environ];
    - [provider]: the state of the embedding provider;
    - [stdout]: the lines printed so far. *)
Record World := {
  fs : gmap string File;
  dirs : gmap string (list FileEntry);
  fitz_installed : bool;
  environ : gmap string string;
  provider : P;
  stdout : list string
}.

Definition set_fs (f : gmap string File) (w : World) : World :=
  {| fs := f; dirs := dirs w; fitz_installed := fitz_installed w;
     environ := environ w; provider := provider w; stdout := stdout w |}.

Definition set_provider (p : P) (w : World) : World :=
  {| fs := fs w; dirs := dirs w; fitz_installed := fitz_installed w;
     environ := environ w; provider := p; stdout := stdout w |}.

Definition set_stdout (o : list string) (w : World) : World :=
  {| fs := fs w; dirs := dirs w; fitz_installed := fitz_installed w;
     environ := environ w; provider := provider w; stdout := o |}.

(** A computation: from a world to a value or a raised exception, and the
    world it leaves. *)
Definition M (A : Type) : Type := World → (exn + A) * World.

Global Instance M_ret : MRet M := λ A a w, (inr a, w).
Global Instance M_bind : MBind M := λ A B k m w,
  match m w with
  | (inr a, w') => k a w'
  | (inl e, w') => (inl e, w')
  end.

(** [try: body except Exception as e: handler]. *)
Definition try_except {A} (body : M A) (handler : exn → M A) : M A := λ w,
  match body w with
  | (inl e, w') => handler e w'
  | r => r
  end.

Definition lift {A} (r : exn + A) : M A := λ w, (r, w).
Definition get_world : M World := λ w, (inr w, w).
Definition print (line : string) : M () := λ w,
  (inr (), set_stdout (stdout w ++ [line]) w).

(** [for x in l: s = body(s, x)]. *)
Fixpoint for_each {A S} (body : S → A → M S) (l : list A) (s : S) : M S :=
  match l with
  | [] => mret s
  | x :: l' => s' ← body s x; for_each body l' s'
  end.

(** [os.path.exists(path)]. *)
Definition path_exists (path : string) : M bool := λ w,
  (inr (bool_decide (is_Some (fs w !! path)) || bool_decide (is_Some (dirs w !! path))), w).

(** [os.getenv(key, default)]. *)
Definition getenv (key dflt : string) : M string := λ w,
  (inr (default dflt (environ w !! key)), w).

(** Writing [content] at [path].  The working directory is taken to be
    writable: the raise of [faiss.write_index] and of [open(path, "w")] on
    a path that cannot be opened for writing is not modelled. *)
Definition write_file (path : string) (content : File) : M () := λ w,
  (inr (), set_fs (<[path := content]> (fs w)) w).

(** One call of the embedding provider. *)
Definition create_embedding (input : string) : M (list F) := λ w,
  let '(r, p') := embeddings_create (provider w) input in (r, set_provider p' w).

(** ** Step 1 of the source: the document loader *)

(** The [.txt/.md/.csv] branch of the loop body of [DocumentLoader.load]. *)
Definition load_text (fe : FileEntry) (docs : list Doc) : M (list Doc) :=
  let fp := fe_path fe in
  try_except
    (text ← lift (fe_read fe);
     if bool_decide (strip text ≠ "")
     then mret (docs ++ [{| raw_content := text; url := basename fp |}])
     else mret docs)
    (λ e, print ("[ERROR] Failed to load " +:+ fp +:+ ": " +:+ str e);; mret docs).

(** The [.pdf] branch: [ImportError] when PyMuPDF is absent, any other
    exception when the extraction fails. *)
Definition load_pdf (fe : FileEntry) (docs : list Doc) : M (list Doc) :=
  let fp := fe_path fe in
  w ← get_world;
  if fitz_installed w then
    try_except
      (text_parts ← lift (fe_pages fe);
       let text := join nl text_parts in
       if bool_decide (strip text ≠ "")
       then mret (docs ++ [{| raw_content := text; url := basename fp |}])
       else mret docs)
      (λ e, print ("[ERROR] Failed to load PDF " +:+ fp +:+ ": " +:+ str e);; mret docs)
  else
    print ("[WARN] PyMuPDF not installed, skipping PDF '" +:+ fp +:+ "'.");; mret docs.

(** The body of [for fp in filepaths]. *)
Definition load_file (docs : list Doc) (fe : FileEntry) : M (list Doc) :=
  let ext := lower (splitext (fe_path fe)).2 in
  if bool_decide (ext ∈ [".txt"; ".md"; ".csv"]) then load_text fe docs
  else if bool_decide (ext = ".pdf") then load_pdf fe docs
  else mret docs.

(** [DocumentLoader(path).load()]. *)
Definition DocumentLoader_load (path : string) : M (list Doc) :=
  w ← get_world;
  match dirs w !! path with
  | None =>
      print ("[WARN] my-docs folder '" +:+ path +:+ "' not found. Returning empty list.");;
      mret []
  | Some filepaths =>
      docs ← for_each load_file filepaths [];
      print ("[INFO] Loaded " +:+ pretty (length docs) +:+ " documents from '"
             +:+ path +:+ "'.");;
      mret docs
  end.

(** ** Step 2, continued: persistence *)

(** [_load_index(self)]: both artifacts are read from [index_path]. *)
Definition _load_index (self : LocalVectorStore) : M LocalVectorStore :=
  print ("[INFO] Loading existing FAISS index from " +:+ index_path self +:+ " ...");;
  w ← get_world;
  ix ← lift (read_index (fs w) (index_path self +:+ ".faiss"));
  m ← lift (json_load (fs w) (index_path self +:+ ".meta.json"));
  print ("[INFO] Loaded doc meta with length = " +:+ pretty (length m));;
  mret {| dimension := dimension self; index_path := index_path self;
          index := ix; doc_meta := m |}.

(** [__post_init__(self)]. *)
Definition __post_init__ (self : LocalVectorStore) : M LocalVectorStore :=
  found ← path_exists (index_path self);
  if found : bool then _load_index self
  else
    print ("[INFO] Created new FAISS index (dim=" +:+ pretty (dimension self) +:+ ").");;
    mret {| dimension := dimension self; index_path := index_path self;
            index := IndexFlatIP_new (dimension self); doc_meta := doc_meta self |}.

(** [LocalVectorStore(dimension=.., index_path=..)]: the dataclass
    defaults ([index=None], [doc_meta=[]]) and then [__post_init__], which
    sets [index] on every path that returns. *)
Definition LocalVectorStore_new (dimension : Z) (index_path : string)
    : M LocalVectorStore :=
  __post_init__ {| dimension := dimension; index_path := index_path;
                   index := IndexFlatIP_new dimension; doc_meta := [] |}.

(** [save(self)]. *)
Definition save (self : LocalVectorStore) : M () :=
  write_file (index_path self +:+ ".faiss") (FaissFile (index self));;
  write_file (index_path self +:+ ".meta.json") (JsonFile (doc_meta self));;
  print "[INFO] Vector store saved to disk.".

(** ** Step 3, continued: building the store *)

(** The body of [for ch in chunked] (lines 229-241). *)
Definition embed_chunk (source : string) (acc : list (list F) * list Meta)
    (ch : string) : M (list (list F) * list Meta) :=
  try_except
    (embedding ← create_embedding ch;
     mret (acc.1 ++ [embedding],
           acc.2 ++ [{| text_chunk := ch; source := source |}]))
    (λ e, print ("[ERROR] Embedding error on chunk from " +:+ source +:+ ": "
                 +:+ str e);;
          mret acc).

(** The body of [for d in docs] (lines 225-241).  [chunk_text] is called
    with its defaults, with which it always returns
    ([chunk_text_default_total]). *)
Definition embed_doc (acc : list (list F) * list Meta) (d : Doc)
    : M (list (list F) * list Meta) :=
  let text := raw_content d in
  let source := url d in
  let chunked := default [] (chunk_text_default text) in
  for_each (embed_chunk source) chunked acc.

(** [ensure_vectorstore_build()]. *)
Definition ensure_vectorstore_build : M LocalVectorStore :=
  let store_path := "local_docs.index" in
  let dimension := 1536 in
  store ← LocalVectorStore_new dimension store_path;
  if (0 <? len (doc_meta store)) && (0 <? ntotal (index store)) then
    print "[INFO] Existing vector store found. Using it.";;
    mret store
  else
    print "[INFO] Building vector store from ./my-docs ...";;
    docs ← DocumentLoader_load "./my-docs";
    match docs with
    | [] =>
        print "[WARN] No docs in ./my-docs. Store will be empty.";;
        mret store
    | _ =>
        api_key ← getenv "OPENAI_API_KEY" "";
        if bool_decide (api_key = "") then
          print "[ERROR] No OPENAI_API_KEY. Cannot embed.";;
          mret store
        else
          '(all_embeddings, all_metas) ← for_each embed_doc docs ([], []);
          store ← lift (add_embeddings store all_embeddings all_metas);
          save store;;
          print ("[INFO] Store built with " +:+ pretty (length all_metas) +:+ " chunks.");;
          mret store
    end.

(** ** Step 4 of the source: the retrieval entry point *)

(** One block of the rendered answer (lines 280-281). *)
Definition render_hit (i : nat) (r : Hit) : string :=
  nl +:+ "---" +:+ nl +:+ "[Rank " +:+ pretty (i + 1)%nat +:+ " | Score="
  +:+ fmt_3f (score r) +:+ " | Source=" +:+ hit_source r +:+ "]" +:+ nl
  +:+ text r.

Definition render (results : list Hit) : string :=
  foldl (λ out ir, out +:+ render_hit ir.1 ir.2) "" (imap pair results).

(** [search_local_docs(query, top_k)]. *)
Definition search_local_docs (query : string) (top_k : Z) : M Result :=
  try_except
    (store ← ensure_vectorstore_build;
     if ntotal (index store) =? 0 then
       mret {| value := "No documents found in vector store. Place docs in ./my-docs." |}
     else
       api_key ← getenv "OPENAI_API_KEY" "";
       if bool_decide (api_key = "") then
         mret {| value := "No OPENAI_API_KEY. Cannot embed queries." |}
       else
         q_embed ← create_embedding query;
         results ← lift (search store q_embed top_k);
         match results with
         | [] => mret {| value := "No relevant docs found." |}
         | _ => mret {| value := strip (render results) |}
         end)
    (λ e, mret {| value := "Error in RAG search: " +:+ str e |}).

End Pipeline.

Arguments World {_ _}.

(** ** Stub collaborators for concrete runs *)

(** An encoder with one token per character. *)
Definition char_encoding : Encoding := {|
  enc_encode s := (λ c, Z.of_nat (nat_of_ascii c)) <$> chars s;
  enc_decode t := of_chars ((λ z, ascii_of_nat (Z.to_nat z)) <$> t)
|}.

(** The binary digits of a positive number. *)
Fixpoint pos_digits (p : positive) : string :=
  match p with
  | xH => "1"
  | xO p' => pos_digits p' +:+ "0"
  | xI p' => pos_digits p' +:+ "1"
  end.

(** A rendering of an integer score, in binary with three zero decimals. *)
Definition int_fmt (z : Z) : string :=
  match z with
  | Z0 => "0.000"
  | Zpos p => pos_digits p +:+ ".000"
  | Zneg p => "-" +:+ pos_digits p +:+ ".000"
  end.

(** Integer scalars with the usual dot product. *)
Definition int_scalars : Float32 := {|
  F := Z;
  inner_product x y := foldr Z.add 0 (zip_with Z.mul x y);
  f_leb := Z.leb;
  f_lowest := - 2 ^ 127;
  fmt_3f := int_fmt
|}.

(** A provider that plays a script: each call consumes the next scripted
    answer, and raises once the script is exhausted. *)
Definition scripted_client : @EmbeddingClient int_scalars := {|
  P := list (exn + list Z);
  embeddings_create (p : list (exn + list (@F int_scalars))) _ :=
    match p with
    | r :: p' => (r, p')
    | [] => (inl (Exception "Connection error."), [])
    end
|}.

(** ** Vocabulary of the properties *)

(** [ceil (a / b)] for [b > 0]. *)
Definition ceil_div (a b : Z) : Z := (a + b - 1) / b.

(** Iterations left when the chunking loop is at offset [i] of [n] tokens
    with stride [s]. *)
Definition steps_from (n s i : Z) : nat := Z.to_nat (ceil_div (n - i) s).

(** The value the chunking loop appends at its [j]-th iteration after
    offset [i]. *)
Definition nth_emit {A} (emit : Z → list Z → A) (tokens : list Z)
    (chunk_size stride i : Z) (j : nat) : A :=
  let st := i + Z.of_nat j * stride in
  emit st (py_slice tokens st (st + chunk_size)).

(** End of the token range [[start, stop)] of a window. *)
Definition window_stop (w : Z * list Z) : Z := w.1 + len w.2.

(** A window contains the final token of an [n]-token stream: [n - 1] lies
    in its range. *)
Definition contains_final_token (n : Z) (w : Z * list Z) : bool :=
  (w.1 <=? n - 1) && (n - 1 <? window_stop w).

(** "Exactly one chunk contains the final token." *)
Definition one_chunk_reaches_end (tokens : list Z) (W O : Z) : Prop :=
  ∀ fuel ws, chunk_windows tokens W O fuel = Some ws →
    length (filter (λ w, contains_final_token (len tokens) w = true) ws) = 1%nat.

Section StoreVocabulary.
Context `{!Float32}.

(** What the loop of [search] appends for one pair of the result row: a hit
    for a label inside [doc_meta], nothing for any other label. *)
Definition hit_of_row (doc_meta : list Meta) (r : F * Z) : option Hit :=
  if (r.2 <? 0) || (len doc_meta <=? r.2) then None
  else
    (λ m, {| score := r.1; text := text_chunk m; hit_source := source m |})
      <$> doc_meta !! Z.to_nat r.2.

(** The entry at position [i] of a store as a hit for the query [q]: the
    inner product of [q] with the [i]-th vector, and the [i]-th metadata. *)
Definition entry_hit (s : LocalVectorStore) (q : list F) (i : nat) : option Hit :=
  v ← xb (index s) !! i;
  m ← doc_meta s !! i;
  Some {| score := inner_product q v; text := text_chunk m; hit_source := source m |}.

(** The invariant of the store: one metadata entry per vector. *)
Definition consistent (s : LocalVectorStore) : Prop :=
  len (doc_meta s) = ntotal (index s).

(** The order on scores, and hits by descending score. *)
Definition f_le (x y : F) : Prop := Is_true (f_leb x y).
Definition score_desc (a b : Hit) : Prop := f_le (score b) (score a).

(** "[search] returns for every store state, query and [k >= 1]." *)
Definition search_total : Prop :=
  ∀ (s : LocalVectorStore) (q : list F) (k : Z),
    1 ≤ k → ∃ results, search s q k = inr results.

End StoreVocabulary.

(** A store with three entries of dimension two, and two queries. *)
Definition example_metas : list Meta :=
  [ {| text_chunk := "alpha"; source := "a.txt" |};
    {| text_chunk := "beta"; source := "a.txt" |};
    {| text_chunk := "gamma"; source := "b.md" |} ].

Definition example_store : @LocalVectorStore int_scalars :=
  @Build_LocalVectorStore int_scalars 2 "local_docs.index"
    (@Build_IndexFlatIP int_scalars 2 [[1; 0]; [0; 1]; [1; 1]]) example_metas.

(** The same index with two of its three metadata entries missing. *)
Definition example_store_short_meta : @LocalVectorStore int_scalars :=
  @Build_LocalVectorStore int_scalars 2 "local_docs.index"
    (@Build_IndexFlatIP int_scalars 2 [[1; 0]; [0; 1]; [1; 1]]) (take 1 example_metas).

Definition example_query : list (@F int_scalars) := [1; 2].
Definition example_query_short : list (@F int_scalars) := [1].

Section OperationsVocabulary.
Context `{!Float32, !EmbeddingClient}.

(** The public operations on a store after its construction. *)
Inductive store_op :=
  | AppendBatch (embeddings : list (list F)) (metas : list Meta)
  | Persist
  | Search (q : list F) (k : Z).

(** The two lists of an [AppendBatch] have the same length. *)
Definition lockstep (o : store_op) : Prop :=
  match o with
  | AppendBatch embeddings metas => length embeddings = length metas
  | _ => True
  end.

(** One operation on a store object in a world.  A call that raises
    leaves the object as it was; [search] changes neither the object nor
    the world. *)
Definition run_op (st : LocalVectorStore * World) (o : store_op)
    : LocalVectorStore * World :=
  match o with
  | AppendBatch embeddings metas =>
      (match add_embeddings st.1 embeddings metas with
       | inr s' => s'
       | inl _ => st.1
       end, st.2)
  | Persist => (st.1, (save st.1 st.2).2)
  | Search q k => st
  end.

End OperationsVocabulary.

Section PipelineVocabulary.
Context `{!Encoding, !Float32, !EmbeddingClient}.

(** The extension tests of the loader's loop body. *)
Definition is_text_file (fe : FileEntry) : bool :=
  bool_decide (lower (splitext (fe_path fe)).2 ∈ [".txt"; ".md"; ".csv"]).

Definition is_pdf_file (fe : FileEntry) : bool :=
  bool_decide (lower (splitext (fe_path fe)).2 = ".pdf").

(** The RawDocument of a file: its text under its base filename. *)
Definition doc_of (fe : FileEntry) (text : string) : Doc :=
  {| raw_content := text; url := basename (fe_path fe) |}.

(** The documents one enumerated file contributes: one when it is of a
    supported format, read without error, and not blank; none otherwise. *)
Definition file_docs (fitz : bool) (fe : FileEntry) : list Doc :=
  if is_text_file fe then
    match fe_read fe with
    | inr text => if bool_decide (strip text ≠ "") then [doc_of fe text] else []
    | inl _ => []
    end
  else if is_pdf_file fe then
    if fitz then
      match fe_pages fe with
      | inr pages =>
          if bool_decide (strip (join nl pages) ≠ "") then [doc_of fe (join nl pages)]
          else []
      | inl _ => []
      end
    else []
  else [].

(** The lines the loader prints for one enumerated file. *)
Definition file_log (fitz : bool) (fe : FileEntry) : list string :=
  if is_text_file fe then
    match fe_read fe with
    | inr _ => []
    | inl e => ["[ERROR] Failed to load " +:+ fe_path fe +:+ ": " +:+ str e]
    end
  else if is_pdf_file fe then
    if fitz then
      match fe_pages fe with
      | inr _ => []
      | inl e => ["[ERROR] Failed to load PDF " +:+ fe_path fe +:+ ": " +:+ str e]
      end
    else ["[WARN] PyMuPDF not installed, skipping PDF '" +:+ fe_path fe +:+ "'."]
  else [].

(** "One RawDocument per recognised text file that is read and decoded." *)
Definition one_doc_per_read_text_file : Prop :=
  ∀ (w : World) path entries docs w',
    dirs w !! path = Some entries →
    DocumentLoader_load path w = (inr docs, w') →
    ∀ fe text,
      fe ∈ entries → is_text_file fe = true → fe_read fe = inr text →
      doc_of fe text ∈ docs.

(** The chunks of the corpus with their sources, in the order the build
    embeds them. *)
Definition doc_chunks (d : Doc) : list (string * string) :=
  (λ ch, (url d, ch)) <$> default [] (chunk_text_default (raw_content d)).

Definition all_chunks (docs : list Doc) : list (string * string) :=
  flat_map doc_chunks docs.

(** The loop body on a chunk paired with its source. *)
Definition embed_pair (acc : list (list F) * list Meta) (c : string * string)
    : M (list (list F) * list Meta) :=
  embed_chunk c.1 acc c.2.

(** The provider called once per input, in order: its answers and the
    state it ends in. *)
Fixpoint provider_run (p : P) (inputs : list string) : list (exn + list F) * P :=
  match inputs with
  | [] => ([], p)
  | x :: rest =>
      let '(r, p') := embeddings_create p x in
      let '(rs, p'') := provider_run p' rest in
      (r :: rs, p'')
  end.

(** What the build keeps of a chunk and the provider's answer for it. *)
Definition kept_entry (c : (string * string) * (exn + list F))
    : option (list F * Meta) :=
  match c.2 with
  | inr v => Some (v, {| text_chunk := c.1.2; source := c.1.1 |})
  | inl _ => None
  end.

Definition kept (chunks : list (string * string)) (answers : list (exn + list F))
    : list (list F * Meta) :=
  omap kept_entry (zip chunks answers).

(** The line the build prints for a chunk whose embedding raised. *)
Definition dropped_line (c : (string * string) * (exn + list F)) : option string :=
  match c.2 with
  | inr _ => None
  | inl e => Some ("[ERROR] Embedding error on chunk from " +:+ c.1.1 +:+ ": " +:+ str e)
  end.

Definition dropped_log (chunks : list (string * string))
    (answers : list (exn + list F)) : list string :=
  omap dropped_line (zip chunks answers).

(** The embedding of [query] fails in world [w]: the credential is
    missing, or the provider raises. *)
Definition query_embedding_fails (w : World) (query : string) : Prop :=
  default "" (environ w !! "OPENAI_API_KEY") = "" ∨
  ∃ e p', embeddings_create (provider w) query = (inl e, p').

(** "Whenever the store is not empty and the query embedding fails, the
    entry point returns one fixed message." *)
Definition query_failure_gives_fixed_message : Prop :=
  ∃ message : string,
    ∀ (w : World) query top_k store w1,
      ensure_vectorstore_build w = (inr store, w1) →
      ntotal (index store) ≠ 0 →
      query_embedding_fails w1 query →
      (search_local_docs query top_k w).1 = inr {| value := message |}.

End PipelineVocabulary.

(** ** Example worlds *)

(** A readable text file of the corpus. *)
Definition text_entry (path text : string) : FileEntry :=
  {| fe_path := path; fe_read := inr text;
     fe_pages := inl (Exception "cannot open document") |}.

(** A vector of the store's dimension. *)
Definition ones : list Z := replicate 1536 1.

(** A world without backing files, with the credential set, the given
    corpus under [./my-docs] and the given provider script. *)
Definition fresh_world (entries : list FileEntry) (script : list (exn + list Z))
    : @World int_scalars scripted_client :=
  @Build_World int_scalars scripted_client
    ∅ {[ "./my-docs" := entries ]} false {[ "OPENAI_API_KEY" := "sk-test" ]}
    script [].

(** One file of five tokens; the provider answers twice. *)
Definition one_doc_world : @World int_scalars scripted_client :=
  fresh_world [text_entry "./my-docs/a.txt" "hello"] [inr ones; inr ones].

(** One file of five tokens; the provider answers once and then raises. *)
Definition failing_query_world : @World int_scalars scripted_client :=
  fresh_world [text_entry "./my-docs/a.txt" "hello"] [inr ones].

(** One file of 1500 tokens, three chunks with the default window; the
    provider raises on the second one. *)
Definition three_chunk_world : @World int_scalars scripted_client :=
  fresh_world
    [text_entry "./my-docs/long.txt" (of_chars (replicate 1500 "a"%char))]
    [inr ones; inl (Exception "Rate limit reached."); inr ones].

(** A blank file next to a file with text. *)
Definition blank_file_world : @World int_scalars scripted_client :=
  fresh_world
    [text_entry "./my-docs/blank.txt" "   "; text_entry "./my-docs/a.txt" "hello"] [].

(** A world whose backing files were put in place by hand, a file at the
    bare index path included, and without the credential. *)
Definition loaded_world_without_key : @World int_scalars scripted_client :=
  @Build_World int_scalars scripted_client
    {[ "local_docs.index" := OtherFile "";
       "local_docs.index.faiss" := FaissFile (index example_store);
       "local_docs.index.meta.json" := JsonFile example_metas ]}
    ∅ false ∅ [] [].

Section CountVocabulary.
Context `{!Float32}.

(** The entry count of the store a call returned, if it returned one. *)
Definition entry_count (r : exn + LocalVectorStore) : option Z :=
  match r with
  | inr s => Some (ntotal (index s))
  | inl _ => None
  end.

(** The number of entries a backing file holds, if the file is there and
    is an index or a metadata list. *)
Definition stored_count (f : option File) : option Z :=
  match f with
  | Some (FaissFile ix) => Some (ntotal ix)
  | Some (JsonFile metas) => Some (len metas)
  | _ => None
  end.

End CountVocabulary.

Section LoaderVocabulary.
Context `{!Float32, !EmbeddingClient}.

(** What the loader returns for [path] in world [w], and the lines it
    prints: nothing and a warning when [path] is not a directory. *)
Definition loaded_docs (w : World) (path : string) : list Doc :=
  match dirs w !! path with
  | Some entries => flat_map (file_docs (fitz_installed w)) entries
  | None => []
  end.

Definition loader_log (w : World) (path : string) : list string :=
  match dirs w !! path with
  | Some entries =>
      flat_map (file_log (fitz_installed w)) entries ++
      ["[INFO] Loaded " +:+ pretty (length (loaded_docs w path)) +:+
       " documents from '" +:+ path +:+ "'."]
  | None =>
      ["[WARN] my-docs folder '" +:+ path +:+ "' not found. Returning empty list."]
  end.

End LoaderVocabulary.

(** A corpus with a text file under an upper-case extension, a file that
    cannot be decoded, a PDF (PyMuPDF is not installed in [fresh_world]) and
    a file of an unsupported format. *)
Definition mixed_entries : list FileEntry :=
  [ text_entry "./my-docs/A.TXT" "hello";
    {| fe_path := "./my-docs/bad.md";
       fe_read := inl (Exception "'utf-8' codec can't decode byte 0xff");
       fe_pages := inl (Exception "cannot open document") |};
    {| fe_path := "./my-docs/paper.pdf";
       fe_read := inl (Exception "'utf-8' codec can't decode byte 0xe2");
       fe_pages := inr ["page one"; "page two"] |};
    text_entry "./my-docs/data.bin" "binary" ].

Definition mixed_corpus_world : @World int_scalars scripted_client :=
  fresh_world mixed_entries [].

(** A corpus directory that holds only a blank file. *)
Definition blank_corpus_world : @World int_scalars scripted_client :=
  fresh_world [text_entry "./my-docs/blank.txt" "   "] [].

(** One file of five tokens and no credential in the environment. *)
Definition no_key_world : @World int_scalars scripted_client :=
  @Build_World int_scalars scripted_client
    ∅ {[ "./my-docs" := [text_entry "./my-docs/a.txt" "hello"] ]} false ∅
    [inr ones] [].

(** One file of five tokens; the provider answers with a vector of three
    components. *)
Definition short_vector_world : @World int_scalars scripted_client :=
  fresh_world [text_entry "./my-docs/a.txt" "hello"] [inr [1; 2; 3]].

(** One file of five tokens; the provider raises on every call. *)
Definition unreachable_provider_world : @World int_scalars scripted_client :=
  fresh_world [text_entry "./my-docs/a.txt" "hello"] [].

(** The backing files of [loaded_world_without_key], with the credential
    set and the given provider script. *)
Definition reusable_world (script : list (exn + list Z))
    : @World int_scalars scripted_client :=
  @Build_World int_scalars scripted_client
    {[ "local_docs.index" := OtherFile "";
       "local_docs.index.faiss" := FaissFile (index example_store);
       "local_docs.index.meta.json" := JsonFile example_metas ]}
    ∅ false {[ "OPENAI_API_KEY" := "sk-test" ]} script [].

(** The same index of three vectors beside an empty metadata list; the
    provider answers once. *)
Definition metadata_lost_world : @World int_scalars scripted_client :=
  @Build_World int_scalars scripted_client
    {[ "local_docs.index" := OtherFile "";
       "local_docs.index.faiss" := FaissFile (index example_store);
       "local_docs.index.meta.json" := JsonFile [] ]}
    ∅ false {[ "OPENAI_API_KEY" := "sk-test" ]} [inr [1; 2]] [].

(** A file at the bare index path and neither artifact beside it. *)
Definition bare_path_only_world : @World int_scalars scripted_client :=
  @Build_World int_scalars scripted_client
    {[ "local_docs.index" := OtherFile "" ]} ∅ false ∅ [] [].

(** The text of one U+00A0 followed by one U+3000, in UTF-8. *)
Definition unicode_blank : string :=
  of_chars (ascii_of_nat <$> [194; 160; 227; 128; 128]%nat).

(** A corpus of one text file that holds this text only. *)
Definition unicode_blank_world : @World int_scalars scripted_client :=
  fresh_world [text_entry "./my-docs/nbsp.txt" unicode_blank] [].

(** * Proofs *)

(** ** Slices and the chunking loop *)

Lemma ceil_div_spec a b k :
  0 < b → ceil_div a b = k ↔ (k - 1) * b < a ≤ k * b.
Proof.
  intros Hb. unfold ceil_div. split.
  - intros <-. pose proof (Z.div_mod (a + b - 1) b ltac:(lia)) as Hdm.
    pose proof (Z.mod_pos_bound (a + b - 1) b Hb). nia.
  - intros [H1 H2]. symmetry. apply (Z.div_unique_pos _ _ _ (a + b - 1 - k * b)); lia.
Qed.

Lemma py_slice_window {A} (l : list A) (st w : Z) :
  0 ≤ st → 0 ≤ w →
  py_slice l st (st + w) =
    take (Z.to_nat (Z.min w (len l - st))) (drop (Z.to_nat st) l).
Proof.
  intros Hst Hw. unfold py_slice, py_clamp, len.
  destruct (Z.ltb_spec st 0); [lia|].
  destruct (Z.ltb_spec (st + w) 0); [lia|].
  destruct (Z.le_gt_cases st (Z.of_nat (length l))) as [Hle|Hgt].
  - rewrite (Z.min_l st) by lia. f_equal. lia.
  - rewrite (Z.min_r st) by lia. rewrite !drop_ge by lia. by rewrite !take_nil.
Qed.

Lemma py_slice_window_length {A} (l : list A) (st w : Z) :
  0 ≤ st ≤ len l → 0 ≤ w →
  len (py_slice l st (st + w)) = Z.min w (len l - st).
Proof.
  intros Hst Hw. rewrite py_slice_window by lia. unfold len in *.
  rewrite length_take, length_drop. lia.
Qed.

Lemma steps_from_done n s i : 0 < s → n ≤ i → steps_from n s i = O.
Proof.
  intros Hs Hi. unfold steps_from, ceil_div.
  assert ((n - i + s - 1) / s ≤ 0); [|lia].
  assert ((n - i + s - 1) / s < 1); [|lia].
  apply Z.div_lt_upper_bound; lia.
Qed.

Lemma steps_from_step n s i :
  0 < s → i < n → steps_from n s i = S (steps_from n s (i + s)).
Proof.
  intros Hs Hi. unfold steps_from, ceil_div.
  replace (n - i + s - 1) with ((n - (i + s) + s - 1) + 1 * s) by lia.
  rewrite Z.div_add by lia.
  assert (0 ≤ (n - (i + s) + s - 1) / s) by (apply Z.div_pos; lia).
  lia.
Qed.

Lemma steps_from_le n s i : 0 < s → 0 ≤ i → (steps_from n s i ≤ Z.to_nat n)%nat.
Proof.
  intros Hs Hi. unfold steps_from, ceil_div.
  destruct (Z.le_gt_cases n i) as [Hle|Hgt].
  - assert ((n - i + s - 1) / s < 1) by (apply Z.div_lt_upper_bound; lia). lia.
  - assert ((n - i + s - 1) / s < n + 1); [|lia].
    apply Z.div_lt_upper_bound; nia.
Qed.

Lemma chunk_loop_closed {A} (emit : Z → list Z → A) tokens W O :
  0 < W - O →
  ∀ fuel i chunks,
    (steps_from (len tokens) (W - O) i < fuel)%nat →
    chunk_loop emit tokens W O fuel i chunks =
      Some (chunks ++ (nth_emit emit tokens W (W - O) i <$>
                         seq 0 (steps_from (len tokens) (W - O) i))).
Proof.
  intros Hs. induction fuel as [|fuel IH]; intros i chunks Hfuel; [lia|].
  simpl. destruct (Z.ltb_spec i (len tokens)) as [Hlt|Hge].
  - rewrite steps_from_step in Hfuel |- * by lia.
    rewrite IH by lia. f_equal. rewrite <-app_assoc. f_equal.
    simpl. f_equal.
    + unfold nth_emit. simpl. by rewrite Z.add_0_r.
    + rewrite <-fmap_S_seq, <-list_fmap_compose.
      apply list_fmap_ext. intros _ j _. unfold nth_emit. simpl.
      replace (i + (W - O) + Z.of_nat j * (W - O))
        with (i + Z.of_nat (S j) * (W - O)) by lia.
      done.
  - rewrite steps_from_done by lia. simpl. by rewrite app_nil_r.
Qed.

(** With a stride that does not advance, the loop never leaves a non-empty
    token stream: no amount of fuel yields a result. *)
Lemma chunk_loop_diverges {A} (emit : Z → list Z → A) tokens W O :
  W - O ≤ 0 → tokens ≠ [] →
  ∀ fuel i chunks, i ≤ 0 → chunk_loop emit tokens W O fuel i chunks = None.
Proof.
  intros Hs Hne. induction fuel as [|fuel IH]; intros i chunks Hi; [done|].
  simpl. destruct (Z.ltb_spec i (len tokens)) as [Hlt|Hge].
  - apply IH. lia.
  - destruct tokens; [done|]. unfold len in Hge. simpl in Hge. lia.
Qed.

Lemma ceil_div_bounds a b : 0 < b → (ceil_div a b - 1) * b < a ≤ ceil_div a b * b.
Proof. intros Hb. by apply ceil_div_spec. Qed.

(** An iteration index below the number of steps starts inside the stream. *)
Lemma step_start_in_range n s (j : nat) :
  0 < s → (j < Z.to_nat (ceil_div n s))%nat → 0 ≤ Z.of_nat j * s < n.
Proof.
  intros Hs Hj. pose proof (ceil_div_bounds n s Hs) as [Hlo _].
  assert (Z.of_nat j ≤ ceil_div n s - 1) by lia. nia.
Qed.

Lemma chunk_loop_from_start {A} (emit : Z → list Z → A) tokens W O fuel :
  0 < W - O → (length tokens < fuel)%nat →
  chunk_loop emit tokens W O fuel 0 [] =
    Some (nth_emit emit tokens W (W - O) 0 <$>
            seq 0 (Z.to_nat (ceil_div (len tokens) (W - O)))).
Proof.
  intros Hs Hfuel.
  pose proof (steps_from_le (len tokens) (W - O) 0 Hs ltac:(lia)) as Hle.
  rewrite chunk_loop_closed by (unfold len in *; lia).
  unfold steps_from. by rewrite Z.sub_0_r.
Qed.

Section ChunkerProofs.
Context `{!Encoding}.

(** C2: with [0 <= O < W], [chunk_text] returns, and it returns exactly
    [ceil (N / (W - O))] chunks for an [N]-token text; the [i]-th chunk is
    the decoding of the [min W (N - i * (W - O))] tokens that start at
    offset [i * (W - O)], so the first starts at 0 and every start advances
    by [W - O]; the last chunk holds [N - (steps - 1) * (W - O)] tokens. *)
Theorem chunk_text_emits_ceil_windows text W O fuel :
  0 ≤ O < W →
  (length (enc_encode text) < fuel)%nat →
  let tokens := enc_encode text in
  let N := len tokens in
  let steps := Z.to_nat (ceil_div N (W - O)) in
  ∃ chunks,
    chunk_text_fuel fuel text W O = Some chunks ∧
    chunk_text text W O = Some chunks ∧
    length chunks = steps ∧
    (∀ i : nat, (i < steps)%nat →
       let start := Z.of_nat i * (W - O) in
       let size := Z.min W (N - start) in
       0 ≤ start < N ∧ 0 < size ∧
       len (take (Z.to_nat size) (drop (Z.to_nat start) tokens)) = size ∧
       chunks !! i =
         Some (enc_decode (take (Z.to_nat size) (drop (Z.to_nat start) tokens)))) ∧
    ((0 < steps)%nat →
       Z.min W (N - (Z.of_nat steps - 1) * (W - O)) =
         N - (Z.of_nat steps - 1) * (W - O)).
Proof.
  intros HO Hfuel tokens N steps.
  assert (0 < W - O) as Hs by lia.
  eexists. split; [|split; [|split; [|split]]].
  - unfold chunk_text_fuel. by apply chunk_loop_from_start.
  - unfold chunk_text, chunk_text_fuel. apply chunk_loop_from_start; [done|lia].
  - by rewrite length_fmap, length_seq.
  - intros i Hi start size.
    pose proof (step_start_in_range N (W - O) i Hs Hi) as Hst.
    assert (0 < size) by (unfold size, start; lia).
    split; [done|]. split; [done|]. split.
    + unfold len. rewrite length_take, length_drop.
      unfold size, start, N, len in *. lia.
    + rewrite list_lookup_fmap, lookup_seq_lt by done. simpl.
      unfold nth_emit. rewrite Z.add_0_l.
      rewrite py_slice_window by lia. done.
  - intros Hpos. pose proof (ceil_div_bounds N (W - O) Hs) as [_ Hhi].
    fold tokens in N. unfold steps in *. lia.
Qed.

End ChunkerProofs.

(** C2 at work: seven tokens, windows of three with overlap one, give
    [ceil (7 / 2) = 4] chunks. *)
Lemma chunk_text_emits_ceil_windows_witness :
  ∃ chunks,
    @chunk_text_fuel char_encoding 8 "abcdefg" 3 1 = Some chunks ∧
    @chunk_text char_encoding "abcdefg" 3 1 = Some chunks ∧
    length chunks = 4%nat.
Proof.
  destruct (@chunk_text_emits_ceil_windows char_encoding "abcdefg" 3 1 8)
    as (chunks & H1 & H2 & H3 & _).
  - lia.
  - vm_compute. lia.
  - exists chunks. split; [exact H1|]. split; [exact H2|]. exact H3.
Defined.

(** ** Where chunking stops *)

Lemma filter_none {A} (P : A → Prop) `{!∀ x, Decision (P x)} (l : list A) :
  Forall (λ x, ¬ P x) l → filter P l = [].
Proof.
  induction 1 as [|x l Hx _ IH]; [done|].
  by rewrite filter_cons_False.
Qed.

Lemma window_in_loop tokens W O (w : Z * list Z) :
  0 ≤ O < W →
  w ∈ (nth_emit pair tokens W (W - O) 0 <$>
         seq 0 (Z.to_nat (ceil_div (len tokens) (W - O)))) →
  ∃ j : nat,
    (j < Z.to_nat (ceil_div (len tokens) (W - O)))%nat ∧
    w.1 = Z.of_nat j * (W - O) ∧
    0 ≤ w.1 < len tokens ∧
    window_stop w = Z.min (w.1 + W) (len tokens).
Proof.
  intros HO (j & -> & Hj)%list_elem_of_fmap.
  apply elem_of_seq in Hj as [_ Hj]. simpl in Hj.
  pose proof (step_start_in_range (len tokens) (W - O) j ltac:(lia) Hj) as Hst.
  exists j. unfold nth_emit, window_stop. simpl. rewrite Z.add_0_l.
  rewrite py_slice_window_length by lia. repeat split; lia.
Qed.

Lemma contains_final_token_iff n W (w : Z * list Z) :
  0 ≤ w.1 < n → 0 < W → window_stop w = Z.min (w.1 + W) n →
  contains_final_token n w = true ↔ n - W ≤ w.1.
Proof.
  intros Hw HW Hstop. unfold contains_final_token. rewrite Hstop.
  rewrite andb_true_iff, Z.leb_le, Z.ltb_lt. lia.
Qed.

(** C3, as the loop does it: the loop stops at the first start offset at or
    past the end of the stream.  Every emitted window starts inside the
    stream; the last one emitted contains the final token, and so does
    every emitted window that starts within [W] tokens of the end; without
    overlap exactly one window contains the final token. *)
Theorem chunk_windows_stop_at_end tokens W O fuel :
  tokens ≠ [] → 0 ≤ O < W → (length tokens < fuel)%nat →
  let N := len tokens in
  ∃ ws,
    chunk_windows tokens W O fuel = Some ws ∧
    (∃ w, last ws = Some w ∧ contains_final_token N w = true) ∧
    (∀ w, w ∈ ws →
       0 ≤ w.1 < N ∧ (contains_final_token N w = true ↔ N - W ≤ w.1)) ∧
    (O = 0 → length (filter (λ w, contains_final_token N w = true) ws) = 1%nat).
Proof.
  intros Hne HO Hfuel N. subst N. set (N := len tokens).
  assert (0 < W - O) as Hs by lia.
  assert (0 < N) as HN by (unfold N, len; destruct tokens; [done|simpl; lia]).
  pose proof (ceil_div_bounds N (W - O) Hs) as [Hlo Hhi].
  assert (0 < ceil_div N (W - O)) as Hsteps by nia.
  eexists. split; [by apply chunk_loop_from_start|]. fold N.
  assert (∀ w, w ∈ (nth_emit pair tokens W (W - O) 0 <$>
                      seq 0 (Z.to_nat (ceil_div N (W - O)))) →
            0 ≤ w.1 < N ∧ (contains_final_token N w = true ↔ N - W ≤ w.1))
    as Hall.
  { intros w (j & Hj & Hw1 & Hin & Hstop)%window_in_loop; [|done].
    split; [done|]. apply contains_final_token_iff; [done|lia|done]. }
  destruct (Z.to_nat (ceil_div N (W - O))) as [|n] eqn:Hn; [lia|].
  rewrite seq_S, fmap_app in Hall |- *. simpl in Hall |- *.
  set (wl := nth_emit pair tokens W (W - O) 0 n) in *.
  assert (wl.1 = Z.of_nat n * (W - O)) as Hwl by (unfold wl, nth_emit; simpl; lia).
  assert (contains_final_token N wl = true) as Hlast.
  { apply Hall; [apply elem_of_app; right; by apply list_elem_of_singleton|].
    rewrite Hwl. nia. }
  split; [|split; [done|]].
  - exists wl. by rewrite last_snoc.
  - intros HO0. rewrite filter_app, length_app.
    rewrite (filter_singleton_True _ wl []) by exact Hlast. simpl.
    assert (filter (λ w, contains_final_token N w = true)
              (nth_emit pair tokens W (W - O) 0 <$> seq 0 n) = []) as ->; [|done].
    apply filter_none. apply Forall_forall. intros w Hw.
    pose proof Hw as (j & -> & Hj)%list_elem_of_fmap.
    apply elem_of_seq in Hj as [_ Hj]. simpl in Hj.
    destruct (Hall (nth_emit pair tokens W (W - O) 0 j)) as [_ Hiff];
      [apply elem_of_app; left; apply list_elem_of_fmap; exists j; split;
       [done|apply elem_of_seq; simpl; lia]|].
    rewrite Hiff. unfold nth_emit. simpl. nia.
Qed.

(** C3 at work on a stream without overlap. *)
Lemma chunk_windows_stop_at_end_witness :
  ∃ ws,
    chunk_windows [1; 2; 3; 4; 5] 2 0 6 = Some ws ∧
    length (filter (λ w, contains_final_token 5 w = true) ws) = 1%nat.
Proof.
  destruct (chunk_windows_stop_at_end [1; 2; 3; 4; 5] 2 0 6)
    as (ws & H1 & _ & _ & H4).
  - discriminate.
  - lia.
  - simpl. lia.
  - exists ws. split; [exact H1|]. exact (H4 eq_refl).
Defined.

(** C3 as stated fails: three tokens with [W = 3] and [O = 1] are cut at
    offsets 0 and 2, and both windows contain the final token. *)
Lemma one_chunk_reaches_end_counterexample :
  ¬ (∀ tokens W O, tokens ≠ [] → 0 ≤ O < W → one_chunk_reaches_end tokens W O).
Proof.
  intros H.
  specialize (H [1; 2; 3] 3 1 ltac:(discriminate) ltac:(lia)
                4%nat [(0, [1; 2; 3]); (2, [3])] eq_refl).
  vm_compute in H. discriminate.
Qed.

(** ** The search loop and the ranking *)

Section StoreProofs.
Context `{!Float32}.

Lemma omap_cons {A B} (f : A → option B) x l :
  omap f (x :: l) =
    match f x with Some y => y :: omap f l | None => omap f l end.
Proof. done. Qed.

Lemma search_loop_omap meta (row : list (F * Z)) acc :
  search_loop meta row acc = acc ++ omap (hit_of_row meta) row.
Proof.
  revert acc. induction row as [|[dist i] row IH]; intros acc.
  - simpl. by rewrite app_nil_r.
  - rewrite omap_cons. unfold hit_of_row at 1. cbn [search_loop fst snd].
    destruct ((i <? 0) || (len meta <=? i)); [apply IH|].
    destruct (meta !! Z.to_nat i); cbn [fmap option_fmap option_map]; rewrite IH; [|done].
    by rewrite <-app_assoc.
Qed.

Lemma hit_of_row_skip meta (r : F * Z) :
  r.2 < 0 ∨ len meta ≤ r.2 → hit_of_row meta r = None.
Proof.
  intros Hr. unfold hit_of_row.
  destruct (Z.ltb_spec r.2 0), (Z.leb_spec (len meta) r.2); simpl; try done; lia.
Qed.

Lemma hit_of_row_Some meta (r : F * Z) h :
  hit_of_row meta r = Some h →
  0 ≤ r.2 < len meta ∧
  ∃ m, meta !! Z.to_nat r.2 = Some m ∧
       h = {| score := r.1; text := text_chunk m; hit_source := source m |}.
Proof.
  unfold hit_of_row.
  destruct (Z.ltb_spec r.2 0), (Z.leb_spec (len meta) r.2); simpl; try done.
  destruct (meta !! Z.to_nat r.2) as [m|]; simpl; [|done].
  intros [= <-]. split; [lia|]. by exists m.
Qed.

Lemma omap_pad meta n :
  omap (hit_of_row meta) (replicate n (f_lowest, -1)) = [].
Proof.
  induction n as [|n IH]; [done|]. cbn [replicate].
  rewrite omap_cons, hit_of_row_skip by (simpl; lia). done.
Qed.

(** A query of the index's dimension with [k >= 1] passes both assertions
    of the wrapper, and the loop keeps the in-bounds part of the best [k]. *)
Lemma search_inr (s : LocalVectorStore) q k :
  len q = d (index s) → 1 ≤ k →
  search s q k =
    inr (omap (hit_of_row (doc_meta s)) (take (Z.to_nat k) (ranked (index s) q))).
Proof.
  intros Hq Hk. unfold search, faiss_search.
  rewrite bool_decide_true by done.
  destruct (Z.ltb_spec 0 k); [|lia]. simpl.
  rewrite zip_fst_snd, search_loop_omap, omap_app, omap_pad.
  by rewrite app_nil_r.
Qed.

(** A query of another dimension is rejected before the loop runs. *)
Lemma search_wrong_dimension (s : LocalVectorStore) q k :
  len q ≠ d (index s) → search s q k = inl AssertionError.
Proof.
  intros Hq. unfold search, faiss_search. by rewrite bool_decide_false.
Qed.

Lemma ranked_Permutation ix q :
  ranked ix q ≡ₚ imap (λ i v, (inner_product q v, Z.of_nat i)) (xb ix).
Proof. apply merge_sort_Permutation. Qed.

Lemma ranked_length ix q : length (ranked ix q) = length (xb ix).
Proof. by rewrite ranked_Permutation, length_imap. Qed.

Lemma ranked_labels ix q :
  (ranked ix q).*2 ≡ₚ Z.of_nat <$> seq 0 (length (xb ix)).
Proof.
  rewrite ranked_Permutation, fmap_imap.
  by rewrite <-(imap_seq_0 (xb ix) Z.of_nat).
Qed.

Lemma ranked_NoDup_labels ix q : NoDup (ranked ix q).*2.
Proof.
  rewrite ranked_labels. apply NoDup_fmap_2; [apply _|apply NoDup_seq].
Qed.

Lemma ranked_elem ix q (r : F * Z) :
  r ∈ ranked ix q ↔
  ∃ (i : nat) v, xb ix !! i = Some v ∧ r = (inner_product q v, Z.of_nat i).
Proof.
  rewrite ranked_Permutation, list_elem_of_lookup. split.
  - intros [i Hi]. rewrite list_lookup_imap in Hi.
    destruct (xb ix !! i) as [v|] eqn:Hv; simplify_eq/=. eauto.
  - intros (i & v & Hv & ->). exists i. by rewrite list_lookup_imap, Hv.
Qed.

Lemma NoDup_labels_take (l : list (F * Z)) n : NoDup l.*2 → NoDup (take n l).*2.
Proof.
  intros Hl. rewrite fmap_take. eapply sublist_NoDup; [done|apply sublist_take].
Qed.

Lemma NoDup_labels_filter (P : F * Z → Prop) `{!∀ r, Decision (P r)}
    (l : list (F * Z)) :
  NoDup l.*2 → NoDup (filter P l).*2.
Proof.
  induction l as [|r l IH]; [done|]. simpl. intros [Hr Hl]%NoDup_cons.
  rewrite filter_cons. destruct (decide (P r)); [|by apply IH].
  simpl. apply NoDup_cons. split; [|by apply IH].
  intros (r' & Heq & [_ Hin]%list_elem_of_filter)%list_elem_of_fmap.
  apply Hr. rewrite Heq. by apply list_elem_of_fmap_2.
Qed.

Lemma length_omap_filter {A B} (f : A → option B) (P : A → Prop)
    `{!∀ x, Decision (P x)} (l : list A) :
  (∀ x y, f x = Some y → P x) →
  (length (omap f l) ≤ length (filter P l))%nat.
Proof.
  intros HfP. induction l as [|x l IH]; [done|].
  rewrite omap_cons, filter_cons. destruct (f x) as [y|] eqn:Hx.
  - rewrite decide_True by eauto. simpl. lia.
  - destruct (decide (P x)); simpl; lia.
Qed.

Lemma length_omap_le {A B} (f : A → option B) (l : list A) :
  (length (omap f l) ≤ length l)%nat.
Proof.
  induction l as [|x l IH]; [done|]. rewrite omap_cons.
  destruct (f x); simpl; lia.
Qed.

(** Distinct labels inside [[0, m)] are at most [m]. *)
Lemma bounded_labels_length (l : list Z) (m : nat) :
  NoDup l → Forall (λ z, 0 ≤ z < Z.of_nat m) l → (length l ≤ m)%nat.
Proof.
  intros Hnd Hl.
  assert (NoDup (Z.to_nat <$> l)) as Hnd'.
  { apply NoDup_fmap_2_strong; [|done].
    intros x y Hx Hy Hxy. rewrite Forall_forall in Hl.
    pose proof (Hl x Hx). pose proof (Hl y Hy). lia. }
  assert (length (Z.to_nat <$> l) ≤ length (seq 0 m))%nat as Hle.
  { apply submseteq_length, NoDup_submseteq; [done|].
    intros x (z & -> & Hz)%list_elem_of_fmap. apply elem_of_seq.
    rewrite Forall_forall in Hl. pose proof (Hl z Hz). lia. }
  by rewrite length_fmap, length_seq in Hle.
Qed.

(** C10, as the code does it: for every store state, also one whose
    vector count and metadata length disagree, every query vector of the
    index's dimension and every [k >= 1], [search] returns; a candidate
    label below 0 or at or above [len(doc_meta)] is skipped, every result
    is read from a valid metadata entry, and there are at most
    [min(k, ntotal, len(doc_meta))] results. *)
Theorem search_skips_labels_out_of_bounds (s : LocalVectorStore) (q : list F) (k : Z) :
  len q = d (index s) → 1 ≤ k →
  ∃ results,
    search s q k = inr results ∧
    (∀ dist i row acc, i < 0 ∨ len (doc_meta s) ≤ i →
       search_loop (doc_meta s) ((dist, i) :: row) acc =
       search_loop (doc_meta s) row acc) ∧
    (∀ h, h ∈ results →
       ∃ (i : nat) m,
         (i < length (doc_meta s))%nat ∧ doc_meta s !! i = Some m ∧
         text h = text_chunk m ∧ hit_source h = source m) ∧
    len results ≤ Z.min k (Z.min (ntotal (index s)) (len (doc_meta s))).
Proof.
  intros Hq Hk. eexists. split; [by apply search_inr|].
  split; [|split].
  - intros dist i row acc Hi. simpl.
    destruct (Z.ltb_spec i 0), (Z.leb_spec (len (doc_meta s)) i); simpl; try done; lia.
  - intros h (r & _ & Hr)%list_elem_of_omap.
    apply hit_of_row_Some in Hr as (Hb & m & Hm & ->).
    exists (Z.to_nat r.2), m. split; [by eapply lookup_lt_Some|done].
  - set (top := take (Z.to_nat k) (ranked (index s) q)).
    pose proof (length_omap_le (hit_of_row (doc_meta s)) top) as Hle.
    assert (length top ≤ Z.to_nat k ∧ length top ≤ length (xb (index s)))%nat
      as [Hk' Hn].
    { unfold top. rewrite length_take, ranked_length. lia. }
    pose proof (length_omap_filter (hit_of_row (doc_meta s))
                  (λ r, 0 ≤ r.2 < len (doc_meta s)) top) as Hf.
    assert (length (filter (λ r : F * Z, (0 ≤ r.2 < len (doc_meta s))%Z) top)
            ≤ length (doc_meta s))%nat as Hm.
    { rewrite <-(length_fmap snd). apply bounded_labels_length.
      - apply NoDup_labels_filter, NoDup_labels_take, ranked_NoDup_labels.
      - apply Forall_fmap, Forall_forall. by intros r [Hr _]%list_elem_of_filter. }
    unfold len, ntotal, len in *.
    assert (length (omap (hit_of_row (doc_meta s)) top) ≤ length (doc_meta s))%nat.
    { etrans; [apply Hf|done]. intros r h Hr. by apply hit_of_row_Some in Hr as [? _]. }
    lia.
Qed.

End StoreProofs.

(** ** Ranked search on a consistent store *)

Section SearchTopK.
Context `{!Float32}.

Global Instance score_ge_total : Total f_le → Total score_ge.
Proof. intros Htot a b. destruct (Htot b.1 a.1); [by left|by right]. Qed.

Global Instance score_ge_trans : Transitive f_le → Transitive score_ge.
Proof. intros Htr a b c Hab Hbc. unfold score_ge, f_le in *. by eapply Htr. Qed.

Lemma ranked_StronglySorted ix q :
  Total f_le → Transitive f_le → StronglySorted score_ge (ranked ix q).
Proof. intros Htot Htr. apply StronglySorted_merge_sort; apply _. Qed.

(** On a consistent store every ranked row yields the hit of its entry. *)
Lemma hits_of_ranked_rows (s : LocalVectorStore) q (l : list (F * Z)) :
  consistent s →
  Forall (λ r, r ∈ ranked (index s) q) l →
  Forall2 (λ h r, entry_hit s q (Z.to_nat r.2) = Some h ∧ score h = r.1)
    (omap (hit_of_row (doc_meta s)) l) l.
Proof.
  intros Hc. induction 1 as [|r l Hr _ IH]; [constructor|].
  apply ranked_elem in Hr as (i & v & Hv & ->).
  assert (i < length (doc_meta s))%nat as Hi.
  { apply lookup_lt_Some in Hv. unfold consistent, ntotal, len in Hc. lia. }
  apply lookup_lt_is_Some_2 in Hi as [m Hm].
  rewrite omap_cons. unfold hit_of_row at 1. cbn [fst snd].
  apply lookup_lt_Some in Hm as Hi.
  destruct (Z.ltb_spec (Z.of_nat i) 0); [lia|].
  destruct (Z.leb_spec (len (doc_meta s)) (Z.of_nat i)); [unfold len in *; lia|].
  rewrite Nat2Z.id, Hm. cbn [orb fmap option_fmap option_map].
  constructor; [|done]. split; [|done].
  unfold entry_hit. cbn [snd]. rewrite Nat2Z.id, Hv. cbn. by rewrite Hm.
Qed.

Lemma sorted_hits (hs : list Hit) (rs : list (F * Z)) :
  Forall2 (λ h r, score h = r.1) hs rs →
  StronglySorted score_ge rs → StronglySorted score_desc hs.
Proof.
  induction 1 as [|h r hs rs Hhr Hrest IH]; [constructor|].
  intros [Hall Hs]%StronglySorted_cons. apply StronglySorted_cons.
  split; [|by apply IH].
  clear IH Hs. induction Hrest as [|h' r' hs rs Hh' _ IH]; [constructor|].
  apply Forall_cons in Hall as [Hr' Hall]. constructor; [|by apply IH].
  unfold score_desc, score_ge, f_le in *. by rewrite Hh', Hhr.
Qed.

(** C4: on a store with one metadata entry per vector, for a query of the
    index's dimension and [k >= 1], [search] returns exactly
    [min(k, entry count)] results; each is the score, chunk text and source
    of a distinct entry; they come by descending inner product and no
    entry left out scores above one returned.  An empty store gives the
    empty list, and with [k] at least the entry count every entry is
    returned.  (Scores are compared by a total, transitive order.) *)
Theorem search_returns_top_k (s : LocalVectorStore) (q : list F) (k : Z) :
  Total f_le → Transitive f_le →
  consistent s → len q = d (index s) → 1 ≤ k →
  let n := length (xb (index s)) in
  ∃ results labels,
    search s q k = inr results ∧
    length results = Nat.min (Z.to_nat k) n ∧
    Forall2 (λ h i, entry_hit s q i = Some h) results labels ∧
    NoDup labels ∧
    StronglySorted score_desc results ∧
    (∀ j v h, xb (index s) !! j = Some v → j ∉ labels → h ∈ results →
       f_le (inner_product q v) (score h)) ∧
    (n = 0%nat → results = []) ∧
    (Z.of_nat n ≤ k → labels ≡ₚ seq 0 n).
Proof.
  intros Htot Htr Hc Hq Hk n.
  set (top := take (Z.to_nat k) (ranked (index s) q)).
  assert (Forall (λ r, r ∈ ranked (index s) q) top) as Htop.
  { apply Forall_forall. intros r Hr. by eapply subseteq_take. }
  pose proof (hits_of_ranked_rows s q top Hc Htop) as Hhits.
  pose proof (ranked_StronglySorted (index s) q Htot Htr) as Hsorted.
  rewrite <-(take_drop (Z.to_nat k) (ranked (index s) q)) in Hsorted. fold top in Hsorted.
  assert (length (omap (hit_of_row (doc_meta s)) top) = Nat.min (Z.to_nat k) n) as Hlen.
  { rewrite (Forall2_length _ _ _ Hhits). unfold top.
    by rewrite length_take, ranked_length. }
  assert (∀ z, z ∈ top.*2 → 0 ≤ z) as Hnonneg.
  { intros z (r & -> & Hr)%list_elem_of_fmap.
    rewrite Forall_forall in Htop. apply Htop in Hr.
    apply ranked_elem in Hr as (i & v & _ & ->). simpl. lia. }
  assert ((λ r : F * Z, Z.to_nat r.2) <$> top = Z.to_nat <$> top.*2) as Hlab
    by (by rewrite <-list_fmap_compose).
  exists (omap (hit_of_row (doc_meta s)) top), ((λ r, Z.to_nat r.2) <$> top).
  split; [by apply search_inr|]. split; [done|].
  split; [|split; [|split; [|split; [|split]]]].
  - apply Forall2_fmap_r. eapply Forall2_impl; [exact Hhits|]. by intros h r [? _].
  - rewrite Hlab.
    apply NoDup_fmap_2_strong; [|apply NoDup_labels_take, ranked_NoDup_labels].
    intros x y Hx%Hnonneg Hy%Hnonneg. lia.
  - eapply sorted_hits; [|by eapply StronglySorted_app_1_l].
    eapply Forall2_impl; [exact Hhits|]. by intros h r [_ ?].
  - intros j v h Hv Hj (r & Hr & Hh)%list_elem_of_omap.
    apply hit_of_row_Some in Hh as (_ & m & _ & ->). simpl.
    assert ((inner_product q v, Z.of_nat j) ∈ top ++ drop (Z.to_nat k) (ranked (index s) q))
      as [Hin|Hin]%elem_of_app.
    { unfold top. rewrite take_drop. apply ranked_elem. eauto. }
    + exfalso. apply Hj. apply list_elem_of_fmap.
      exists (inner_product q v, Z.of_nat j). split; [simpl; lia|done].
    + apply (StronglySorted_app_1_elem_of _ _ _ _ _ Hsorted Hr Hin).
  - intros Hn. apply length_zero_iff_nil. lia.
  - intros Hn. rewrite Hlab. unfold top.
    rewrite take_ge by (rewrite ranked_length; lia).
    rewrite ranked_labels.
    rewrite <-list_fmap_compose. fold n.
    rewrite (list_fmap_ext (Z.to_nat ∘ Z.of_nat) id (seq 0 n)).
    + by rewrite list_fmap_id.
    + intros _ i _. simpl. apply Nat2Z.id.
Qed.

End SearchTopK.

Lemma int_le_total : Total (@f_le int_scalars).
Proof.
  intros x y. unfold f_le. simpl.
  destruct (Z.leb_spec x y); [by left|right]. apply Is_true_true, Z.leb_le. lia.
Qed.

Lemma int_le_trans : Transitive (@f_le int_scalars).
Proof.
  intros x y z. unfold f_le. simpl.
  rewrite !Is_true_true, !Z.leb_le. lia.
Qed.

(** C4 at work: the best two of three entries. *)
Lemma search_returns_top_k_witness :
  ∃ results,
    search example_store example_query 2 = inr results ∧ length results = 2%nat.
Proof.
  destruct (search_returns_top_k example_store example_query 2
              int_le_total int_le_trans)
    as (results & labels & Hs & Hl & _).
  - reflexivity.
  - reflexivity.
  - lia.
  - exists results. split; [exact Hs|exact Hl].
Defined.

(** C10 at work on a store whose metadata list is shorter than its index:
    the best two labels are 2 and 1, both at or above [len(doc_meta) = 1]. *)
Lemma search_skips_labels_out_of_bounds_witness :
  ∃ results,
    search example_store_short_meta example_query 2 = inr results ∧
    len results ≤ 1.
Proof.
  destruct (search_skips_labels_out_of_bounds example_store_short_meta example_query 2)
    as (results & Hs & _ & _ & Hl).
  - reflexivity.
  - lia.
  - exists results. split; [exact Hs|]. vm_compute in Hl. exact Hl.
Defined.

(** C10 as stated fails: a query vector that is not of the index's
    dimension makes the index's own assertion raise. *)
Lemma search_total_counterexample : ¬ @search_total int_scalars.
Proof.
  intros H. destruct (H example_store example_query_short 1 ltac:(lia)) as [results Hr].
  vm_compute in Hr. discriminate.
Qed.

(** ** Persistence *)

Section PersistenceProofs.
Context `{!Float32, !EmbeddingClient}.

Lemma backing_paths_differ (path : string) :
  path +:+ ".faiss" ≠ path +:+ ".meta.json".
Proof. intros Heq. by apply (inj (String.app path)) in Heq. Qed.

Lemma save_run (s : LocalVectorStore) (w : World) :
  save s w =
    (inr (),
     set_stdout (stdout w ++ ["[INFO] Vector store saved to disk."])
       (set_fs (<[index_path s +:+ ".meta.json" := JsonFile (doc_meta s)]>
                  (<[index_path s +:+ ".faiss" := FaissFile (index s)]> (fs w))) w)).
Proof. reflexivity. Qed.

(** [_load_index] returns exactly when both artifacts are there. *)
Lemma load_index_run (self : LocalVectorStore) (w : World) ix m :
  fs w !! (index_path self +:+ ".faiss") = Some (FaissFile ix) →
  fs w !! (index_path self +:+ ".meta.json") = Some (JsonFile m) →
  ∃ w', _load_index self w =
          (inr {| dimension := dimension self; index_path := index_path self;
                  index := ix; doc_meta := m |}, w').
Proof.
  intros Hix Hm. unfold _load_index, mbind, M_bind, print, get_world, lift,
    read_index, json_load. simpl. rewrite Hix, Hm. simpl. eauto.
Qed.

Lemma load_index_inv (self : LocalVectorStore) (w : World) s w' :
  _load_index self w = (inr s, w') →
  ∃ ix m,
    fs w !! (index_path self +:+ ".faiss") = Some (FaissFile ix) ∧
    fs w !! (index_path self +:+ ".meta.json") = Some (JsonFile m) ∧
    s = {| dimension := dimension self; index_path := index_path self;
           index := ix; doc_meta := m |}.
Proof.
  unfold _load_index, mbind, M_bind, print, get_world, lift, read_index, json_load.
  simpl.
  destruct (fs w !! (index_path self +:+ ".faiss")) as [[ix| |]|]; simpl; try done.
  destruct (fs w !! (index_path self +:+ ".meta.json")) as [[|m|]|]; simpl; try done.
  intros [= <- _]. eauto.
Qed.

(** When [_load_index] is reached after [save], on any store object with
    the same [index_path], it rebuilds the index and the metadata as they
    were saved, so [search] returns the same ranked results, with the same
    scores, for every query vector and every [k]. *)
Lemma save_then_load_same_search (s : LocalVectorStore) (w : World)
    (dim : Z) (ix0 : IndexFlatIP) (m0 : list Meta) :
  ∃ s' w',
    _load_index {| dimension := dim; index_path := index_path s;
                   index := ix0; doc_meta := m0 |} (save s w).2 = (inr s', w') ∧
    index s' = index s ∧
    doc_meta s' = doc_meta s ∧
    ∀ q k, search s' q k = search s q k.
Proof.
  rewrite save_run. cbn [snd].
  match goal with |- context [_load_index ?self ?w1] =>
    destruct (load_index_run self w1 (index s) (doc_meta s)) as [w' Hload]
  end.
  - unfold set_stdout, set_fs. cbn [fs index_path].
    rewrite lookup_insert_ne by (symmetry; apply backing_paths_differ).
    apply lookup_insert_eq.
  - unfold set_stdout, set_fs. cbn [fs index_path]. apply lookup_insert_eq.
  - eexists _, w'. split; [exact Hload|]. done.
Qed.

(** ** The lock-step invariant *)

Lemma add_embeddings_appends (s s' : LocalVectorStore) embeddings metas :
  add_embeddings s embeddings metas = inr s' →
  (embeddings = [] ∧ s' = s) ∨
  (xb (index s') = xb (index s) ++ embeddings ∧
   doc_meta s' = doc_meta s ++ metas ∧
   d (index s') = d (index s) ∧
   dimension s' = dimension s ∧ index_path s' = index_path s).
Proof.
  unfold add_embeddings. destruct embeddings as [|e es]; [intros [= <-]; by left|].
  unfold np_array. destruct (forallb _ es); [|done].
  unfold faiss_add. cbn. unfold guard_or.
  destruct (bool_decide _); [|done]. cbn. intros [= <-]. by right.
Qed.

Lemma new_store_consistent dim path (w : World) s0 w0 :
  LocalVectorStore_new dim path w = (inr s0, w0) →
  (∀ ix m,
     fs w !! (path +:+ ".faiss") = Some (FaissFile ix) →
     fs w !! (path +:+ ".meta.json") = Some (JsonFile m) →
     len m = ntotal ix) →
  consistent s0.
Proof.
  unfold LocalVectorStore_new, __post_init__, mbind, M_bind, path_exists. cbn.
  destruct (_ || _).
  - intros (ix & m & Hix & Hm & ->)%load_index_inv Hfiles. cbn in *.
    unfold consistent. cbn. eauto.
  - unfold print. cbn. by intros [= <- _] _.
Qed.

(** C6: from a fresh store, or one loaded from backing files that agree
    in their entry count, any sequence of [AppendBatch] calls on lists of
    equal length, [Persist] and [Search] keeps
    [len(doc_meta) == index.ntotal], and the vectors and the metadata the
    store started with stay in place as a prefix of what it holds: entries
    are only appended, both lists by the same number. *)
Theorem store_lockstep_invariant dim path (w : World) s0 w0 (ops : list store_op) :
  LocalVectorStore_new dim path w = (inr s0, w0) →
  (∀ ix m,
     fs w !! (path +:+ ".faiss") = Some (FaissFile ix) →
     fs w !! (path +:+ ".meta.json") = Some (JsonFile m) →
     len m = ntotal ix) →
  Forall lockstep ops →
  let s := (foldl run_op (s0, w0) ops).1 in
  consistent s0 ∧ consistent s ∧
  ∃ vectors metas,
    xb (index s) = xb (index s0) ++ vectors ∧
    doc_meta s = doc_meta s0 ++ metas ∧
    length vectors = length metas.
Proof.
  intros Hnew Hfiles Hops.
  pose proof (new_store_consistent _ _ _ _ _ Hnew Hfiles) as Hc0.
  cbn zeta. split; [done|].
  assert (∀ st : LocalVectorStore * World,
    consistent st.1 →
    consistent (foldl run_op st ops).1 ∧
    ∃ vectors metas,
      xb (index (foldl run_op st ops).1) = xb (index st.1) ++ vectors ∧
      doc_meta (foldl run_op st ops).1 = doc_meta st.1 ++ metas ∧
      length vectors = length metas) as Hgen; [|by apply (Hgen (s0, w0))].
  clear Hnew Hc0. induction Hops as [|o ops Ho _ IH]; intros st Hc.
  { cbn. split; [done|]. exists [], []. by rewrite !app_nil_r. }
  cbn [foldl].
  assert (consistent (run_op st o).1 ∧
          ∃ vectors metas,
            xb (index (run_op st o).1) = xb (index st.1) ++ vectors ∧
            doc_meta (run_op st o).1 = doc_meta st.1 ++ metas ∧
            length vectors = length metas) as (Hc' & v1 & m1 & Hv1 & Hm1 & Hl1).
  { destruct o as [embeddings metas| |q k]; cbn in *.
    - destruct (add_embeddings st.1 embeddings metas) as [e|s'] eqn:Hadd.
      + split; [done|]. exists [], []. by rewrite !app_nil_r.
      + apply add_embeddings_appends in Hadd as [[-> ->]|(Hxb & Hmeta & _)].
        * split; [done|]. exists [], []. by rewrite !app_nil_r.
        * split; [|by exists embeddings, metas].
          unfold consistent, ntotal, len in *. rewrite Hxb, Hmeta, !length_app. lia.
    - split; [done|]. exists [], []. by rewrite !app_nil_r.
    - split; [done|]. exists [], []. by rewrite !app_nil_r. }
  destruct (IH _ Hc') as (Hc'' & v2 & m2 & Hv2 & Hm2 & Hl2).
  split; [done|]. exists (v1 ++ v2), (m1 ++ m2).
  rewrite Hv2, Hm2, Hv1, Hm1, !app_assoc, !length_app. by rewrite Hl1, Hl2.
Qed.

End PersistenceProofs.

(** ** The loader *)

(** Unfolds the monad of computations down to functions on worlds. *)
Ltac run_m :=
  unfold mbind, mret, M_bind, M_ret, try_except, lift, get_world, print,
    getenv, path_exists, write_file in *;
  cbn.

(** Closes a goal whose two sides differ by empty appends and by the
    unfolding of the world [w]. *)
Ltac same_world w :=
  rewrite ?app_nil_r; f_equal; destruct w; cbn in *; subst;
  by rewrite ?app_nil_r.

Section LoaderProofs.
Context `{!Float32, !EmbeddingClient}.

(** The loop body adds the file's documents and prints the file's lines. *)
Lemma load_file_run docs fe (w : World) :
  load_file docs fe w =
    (inr (docs ++ file_docs (fitz_installed w) fe),
     set_stdout (stdout w ++ file_log (fitz_installed w) fe) w).
Proof.
  unfold load_file, file_docs, file_log, is_text_file, is_pdf_file.
  destruct (bool_decide (_ ∈ _)).
  - unfold load_text. run_m.
    destruct (fe_read fe) as [e|text]; cbn; [by rewrite app_nil_r|].
    destruct (bool_decide (strip text ≠ "")); cbn; same_world w.
  - destruct (bool_decide (_ = ".pdf")).
    + unfold load_pdf. run_m.
      destruct (fitz_installed w) eqn:Hfitz; cbn; [|by rewrite app_nil_r].
      destruct (fe_pages fe) as [e|pages]; cbn; [by rewrite app_nil_r|].
      destruct (bool_decide (strip (join nl pages) ≠ "")); cbn; same_world w.
    + run_m. same_world w.
Qed.

Lemma load_loop_run entries docs (w : World) :
  for_each load_file entries docs w =
    (inr (docs ++ flat_map (file_docs (fitz_installed w)) entries),
     set_stdout (stdout w ++ flat_map (file_log (fitz_installed w)) entries) w).
Proof.
  revert docs w. induction entries as [|fe entries IH]; intros docs w.
  - run_m. same_world w.
  - cbn [for_each flat_map]. unfold mbind, M_bind. rewrite load_file_run, IH.
    cbn. by rewrite <-!app_assoc.
Qed.

(** The loader returns, in enumeration order, what each enumerated file
    contributes; it changes nothing but the standard output. *)
Lemma DocumentLoader_load_run path (w : World) entries :
  dirs w !! path = Some entries →
  let docs := flat_map (file_docs (fitz_installed w)) entries in
  DocumentLoader_load path w =
    (inr docs,
     set_stdout (stdout w ++ flat_map (file_log (fitz_installed w)) entries ++
                 ["[INFO] Loaded " +:+ pretty (length docs) +:+ " documents from '"
                  +:+ path +:+ "'."]) w).
Proof.
  intros Hdir. unfold DocumentLoader_load. unfold mbind, M_bind, get_world.
  rewrite Hdir, load_loop_run. run_m. by rewrite <-app_assoc.
Qed.

Lemma DocumentLoader_load_missing path (w : World) :
  dirs w !! path = None →
  DocumentLoader_load path w =
    (inr [],
     set_stdout (stdout w ++ ["[WARN] my-docs folder '" +:+ path +:+
                              "' not found. Returning empty list."]) w).
Proof.
  intros Hdir. unfold DocumentLoader_load. unfold mbind, M_bind, get_world.
  rewrite Hdir. by run_m.
Qed.

(** C9, as the loader does it: the loader returns, in enumeration order,
    one RawDocument for every enumerated file with a recognised plain-text
    extension that is read and decoded and whose text is not blank,
    carrying the full text and the base filename; a text file that is
    blank or cannot be read contributes none. *)
Theorem loader_one_doc_per_nonblank_text_file path (w : World) entries :
  dirs w !! path = Some entries →
  ∃ w',
    DocumentLoader_load path w =
      (inr (flat_map (file_docs (fitz_installed w)) entries), w') ∧
    ∀ fe, fe ∈ entries → is_text_file fe = true →
      (∀ text, fe_read fe = inr text → strip text ≠ "" →
         file_docs (fitz_installed w) fe =
           [{| raw_content := text; url := basename (fe_path fe) |}]) ∧
      (∀ text, fe_read fe = inr text → strip text = "" →
         file_docs (fitz_installed w) fe = []) ∧
      (∀ e, fe_read fe = inl e → file_docs (fitz_installed w) fe = []).
Proof.
  intros Hdir. eexists. split; [by apply DocumentLoader_load_run|].
  intros fe _ Htext. unfold file_docs. rewrite Htext.
  split; [|split].
  - intros text -> Hnb. by rewrite bool_decide_true.
  - intros text -> Hb. by rewrite bool_decide_false by (by intros ?).
  - by intros e ->.
Qed.

End LoaderProofs.

(** ** The build *)

Section BuildProofs.
Context `{!Encoding, !Float32, !EmbeddingClient}.

(** With its defaults [chunk_text] always returns. *)
Lemma chunk_text_default_total text : is_Some (chunk_text_default text).
Proof.
  unfold chunk_text_default, chunk_text, chunk_text_fuel.
  rewrite chunk_loop_from_start by lia. eauto.
Qed.

Lemma provider_run_length p inputs :
  length (provider_run p inputs).1 = length inputs.
Proof.
  revert p. induction inputs as [|x rest IH]; intros p; [done|]. cbn.
  destruct (embeddings_create p x) as [r p1]. specialize (IH p1).
  destruct (provider_run p1 rest) as [rs p2]. cbn in *. by rewrite IH.
Qed.

Lemma for_each_app {A S} (body : S → A → M S) l1 l2 s (w : World) :
  for_each body (l1 ++ l2) s w =
    match for_each body l1 s w with
    | (inr s', w') => for_each body l2 s' w'
    | (inl e, w') => (inl e, w')
    end.
Proof.
  revert s w. induction l1 as [|x l1 IH]; intros s w; [done|].
  cbn [app for_each]. unfold mbind, M_bind.
  destruct (body s x w) as [[e|s'] w']; [done|]. apply IH.
Qed.

Lemma embed_pairs_run cs acc (w : World) :
  let run := provider_run (provider w) cs.*2 in
  for_each embed_pair cs acc w =
    (inr (acc.1 ++ (kept cs run.1).*1, acc.2 ++ (kept cs run.1).*2),
     set_provider run.2 (set_stdout (stdout w ++ dropped_log cs run.1) w)).
Proof.
  revert acc w. induction cs as [|[src ch] cs IH]; intros acc w.
  - cbn. run_m. destruct acc. same_world w.
  - cbn [for_each fmap list_fmap snd provider_run].
    unfold mbind at 1, M_bind at 1.
    unfold embed_pair at 1, embed_chunk, create_embedding. run_m.
    destruct (embeddings_create (provider w) ch) as [[e|v] p1] eqn:Hcall; cbn.
    + rewrite IH. cbn.
      destruct (provider_run p1 cs.*2) as [rs p2]. cbn.
      unfold kept, dropped_log, set_provider, set_stdout. cbn.
      by rewrite <-?app_assoc.
    + rewrite IH. cbn.
      destruct (provider_run p1 cs.*2) as [rs p2]. cbn.
      unfold kept, dropped_log, set_provider, set_stdout. cbn.
      by rewrite <-?app_assoc.
Qed.

Lemma embed_chunks_as_pairs src chunks acc (w : World) :
  for_each (embed_chunk src) chunks acc w =
  for_each embed_pair ((λ ch, (src, ch)) <$> chunks) acc w.
Proof.
  revert acc w. induction chunks as [|ch chunks IH]; intros acc w; [done|].
  cbn [for_each fmap list_fmap]. unfold mbind, M_bind, embed_pair at 1. cbn [fst snd].
  destruct (embed_chunk src acc ch w) as [[e|acc'] w']; [done|]. apply IH.
Qed.

Lemma embed_docs_as_pairs docs acc (w : World) :
  for_each embed_doc docs acc w = for_each embed_pair (all_chunks docs) acc w.
Proof.
  revert acc w. induction docs as [|doc docs IH]; intros acc w; [done|].
  cbn [for_each all_chunks flat_map]. rewrite for_each_app.
  unfold mbind, M_bind, embed_doc at 1. rewrite embed_chunks_as_pairs.
  fold (doc_chunks doc).
  destruct (for_each embed_pair (doc_chunks doc) acc w) as [[e|acc'] w']; [done|].
  apply IH.
Qed.

(** The two loops of the build: every chunk is sent to the provider once,
    in order; what is kept and what is logged follow the answers. *)
Lemma embed_docs_run docs (w : World) :
  let cs := all_chunks docs in
  let run := provider_run (provider w) cs.*2 in
  for_each embed_doc docs ([], []) w =
    (inr ((kept cs run.1).*1, (kept cs run.1).*2),
     set_provider run.2 (set_stdout (stdout w ++ dropped_log cs run.1) w)).
Proof. cbn zeta. by rewrite embed_docs_as_pairs, embed_pairs_run. Qed.

End BuildProofs.

Section BuildTheorem.
Context `{!Encoding, !Float32, !EmbeddingClient}.

(** Constructing a store changes nothing but the standard output. *)
Lemma new_store_only_prints dim path (w : World) r w0 :
  LocalVectorStore_new dim path w = (r, w0) →
  ∃ lines, w0 = set_stdout (stdout w ++ lines) w.
Proof.
  unfold LocalVectorStore_new, __post_init__, _load_index. run_m.
  destruct (_ || _).
  - destruct (read_index _ _) as [e|ix]; cbn; [intros [= _ <-]; eauto|].
    destruct (json_load _ _) as [e|m]; cbn; intros [= _ <-].
    + eauto.
    + eexists (_ :: _ :: nil). unfold set_stdout. cbn. by rewrite <-app_assoc.
  - intros [= _ <-]. eauto.
Qed.

Lemma M_bind_run {A B} (m : M A) (k : A → M B) (w : World) a w' :
  m w = (inr a, w') → (m ≫= k) w = k a w'.
Proof. intros Hm. unfold mbind, M_bind. by rewrite Hm. Qed.

Lemma match_nonempty {A B} (l : list A) (x y : B) :
  l ≠ [] → match l with [] => x | _ :: _ => y end = y.
Proof. by destruct l. Qed.

Lemma np_array_same_length (vs : list (list F)) n :
  Forall (λ v, len v = n) vs → np_array vs = inr vs.
Proof.
  intros Hvs. unfold np_array. destruct vs as [|v vs]; [done|].
  apply Forall_cons in Hvs as [Hv Hvs].
  assert (forallb (λ r', bool_decide (length r' = length v)) vs = true) as ->; [|done].
  apply forallb_forall. intros v' Hin%list_elem_of_In.
  rewrite Forall_forall in Hvs. specialize (Hvs v' Hin).
  apply bool_decide_eq_true. unfold len in *. lia.
Qed.

(** Vectors of the index's dimension are all appended. *)
Lemma add_embeddings_same_dimension (s : LocalVectorStore) vs ms :
  Forall (λ v, len v = d (index s)) vs →
  (vs = [] → ms = []) →
  ∃ s', add_embeddings s vs ms = inr s' ∧
        xb (index s') = xb (index s) ++ vs ∧
        doc_meta s' = doc_meta s ++ ms ∧
        index_path s' = index_path s.
Proof.
  intros Hvs Hms. unfold add_embeddings. destruct vs as [|v vs].
  - rewrite (Hms eq_refl). exists s. by rewrite !app_nil_r.
  - rewrite (np_array_same_length _ _ Hvs). cbn.
    apply Forall_cons in Hvs as [Hv _]. unfold faiss_add, guard_or. cbn.
    rewrite bool_decide_true by done. cbn. eauto.
Qed.

Lemma kept_vectors_inr chunks (answers : list (exn + list F)) v :
  v ∈ (kept chunks answers).*1 → inr v ∈ answers.
Proof.
  intros ([v' m] & -> & (c & Hc & Hk)%list_elem_of_omap)%list_elem_of_fmap.
  unfold kept_entry in Hk. destruct c as [c r]. cbn in *.
  destruct r as [e|v'']; simplify_eq/=.
  apply list_elem_of_lookup in Hc as [i Hi].
  apply lookup_zip_with_Some in Hi as (? & ? & ? & ? & Hr). simplify_eq.
  by eapply list_elem_of_lookup_2.
Qed.

Lemma kept_dropped_length chunks (answers : list (exn + list F)) :
  length answers = length chunks →
  (length (kept chunks answers) + length (dropped_log chunks answers))%nat
    = length chunks.
Proof.
  revert answers. induction chunks as [|c chunks IH]; intros [|r answers] Hlen;
    simplify_eq/=; [done|].
  unfold kept, dropped_log in *. cbn [zip zip_with]. rewrite !omap_cons.
  specialize (IH answers ltac:(done)).
  unfold kept_entry at 1, dropped_line at 1. destruct r; cbn; lia.
Qed.

(** C7: a build that starts from an empty store, over a corpus that yields
    documents and with the credential set, returns whatever the provider
    does on single chunks (its vectors being of the store's dimension):
    every chunk is sent to the provider once, in order; a chunk whose call
    raises is logged and dropped; the store ends with exactly the chunks
    whose call answered, in order, one vector and one metadata entry each,
    and is persisted.  With one failure among three chunks it ends with
    two entries. *)
Theorem build_keeps_embedded_chunks (w : World) s0 w0 entries :
  LocalVectorStore_new 1536 "local_docs.index" w = (inr s0, w0) →
  xb (index s0) = [] → doc_meta s0 = [] → d (index s0) = 1536 →
  dirs w !! "./my-docs" = Some entries →
  let docs := flat_map (file_docs (fitz_installed w)) entries in
  docs ≠ [] →
  default "" (environ w !! "OPENAI_API_KEY") ≠ "" →
  let chunks := all_chunks docs in
  let run := provider_run (provider w) chunks.*2 in
  Forall (λ r, ∀ v, r = inr v → len v = 1536) run.1 →
  ∃ s w',
    ensure_vectorstore_build w = (inr s, w') ∧
    length run.1 = length chunks ∧
    provider w' = run.2 ∧
    xb (index s) = (kept chunks run.1).*1 ∧
    doc_meta s = (kept chunks run.1).*2 ∧
    len (doc_meta s) = ntotal (index s) ∧
    ntotal (index s) = len chunks - len (dropped_log chunks run.1) ∧
    (len chunks = 3 → len (dropped_log chunks run.1) = 1 → ntotal (index s) = 2) ∧
    (∀ line, line ∈ dropped_log chunks run.1 → line ∈ stdout w') ∧
    fs w' !! "local_docs.index.faiss" = Some (FaissFile (index s)) ∧
    fs w' !! "local_docs.index.meta.json" = Some (JsonFile (doc_meta s)).
Proof.
  intros Hnew Hxb Hmeta Hd Hdir docs Hdocs Hkey chunks run Hdim.
  destruct (new_store_only_prints _ _ _ _ _ Hnew) as [lines0 ->].
  assert (length run.1 = length chunks) as Hlen.
  { unfold run. by rewrite provider_run_length, length_fmap. }
  destruct (add_embeddings_same_dimension s0 (kept chunks run.1).*1
              (kept chunks run.1).*2) as (s & Hadd & Hxb' & Hmeta' & Hpath).
  { apply Forall_forall. intros v Hv%kept_vectors_inr. rewrite Hd.
    rewrite Forall_forall in Hdim. by eapply Hdim. }
  { by intros ->%fmap_nil_inv. }
  rewrite Hxb in Hxb'. rewrite Hmeta in Hmeta'. cbn [app] in Hxb', Hmeta'.
  assert (index_path s = "local_docs.index") as Hpath'.
  { rewrite Hpath. unfold LocalVectorStore_new, __post_init__ in Hnew.
    revert Hnew. run_m. destruct (_ || _).
    - intros (? & ? & _ & _ & ->)%load_index_inv. done.
    - by intros [= <-]. }
  unfold ensure_vectorstore_build. cbn zeta.
  rewrite (M_bind_run _ _ _ _ _ Hnew).
  unfold ntotal. rewrite Hxb, Hmeta.
  change ((0 <? len (@nil Meta)) && (0 <? len (@nil (list F)))) with false.
  cbv iota.
  erewrite (M_bind_run (print _)); [|reflexivity].
  erewrite M_bind_run; [|by apply DocumentLoader_load_run].
  cbn [fitz_installed set_stdout]. fold docs.
  rewrite (match_nonempty docs) by done.
  erewrite (M_bind_run (getenv _ _)); [|reflexivity].
  cbn [environ set_stdout]. rewrite bool_decide_false by done.
  erewrite M_bind_run; [|by apply embed_docs_run].
  cbn [provider set_stdout]. fold chunks. fold run. cbv beta iota.
  erewrite (M_bind_run (lift _)); [|unfold lift; by rewrite Hadd].
  erewrite M_bind_run; [|by apply save_run].
  erewrite (M_bind_run (print _)); [|reflexivity].
  eexists _, _. split; [reflexivity|]. rewrite Hpath', Hxb', Hmeta'.
  split; [done|]. split; [done|]. split; [done|]. split; [done|].
  pose proof (kept_dropped_length chunks run.1 Hlen) as Hcount.
  split; [unfold len; by rewrite !length_fmap|].
  split; [unfold len; rewrite length_fmap; lia|].
  split; [unfold len; rewrite length_fmap; lia|].
  split.
  - intros line Hline. cbn. rewrite !elem_of_app. eauto.
  - split; cbn; by simplify_map_eq.
Qed.

End BuildTheorem.

(** C7 at work: three chunks, the second embedding call raises, and the
    store ends with two entries. *)
Lemma build_keeps_embedded_chunks_witness :
  ∃ s w',
    @ensure_vectorstore_build char_encoding _ _ three_chunk_world = (inr s, w') ∧
    ntotal (index s) = 2.
Proof.
  edestruct (@build_keeps_embedded_chunks char_encoding _ _ three_chunk_world)
    as (s & w' & Hrun & _ & _ & _ & _ & _ & _ & Htwo & _).
  - reflexivity.
  - reflexivity.
  - reflexivity.
  - reflexivity.
  - reflexivity.
  - vm_compute. discriminate.
  - vm_compute. discriminate.
  - vm_compute. repeat constructor; intros v [= <-]; reflexivity.
  - exists s, w'. split; [exact Hrun|]. apply Htwo; vm_compute; reflexivity.
Defined.

(** C9 at work: a corpus with a blank file and a file with text yields the
    one document of the file with text. *)
Lemma loader_one_doc_per_nonblank_text_file_witness :
  ∃ w',
    DocumentLoader_load "./my-docs" blank_file_world =
      (inr [{| raw_content := "hello"; url := "a.txt" |}], w').
Proof.
  destruct (loader_one_doc_per_nonblank_text_file "./my-docs" blank_file_world
              [text_entry "./my-docs/blank.txt" "   ";
               text_entry "./my-docs/a.txt" "hello"])
    as (w' & Hload & _).
  - reflexivity.
  - exists w'. exact Hload.
Defined.

(** C9 as stated fails: a recognised text file that is read and decoded
    but holds only whitespace yields no document. *)
Lemma one_doc_per_read_text_file_counterexample :
  ¬ @one_doc_per_read_text_file int_scalars scripted_client.
Proof.
  intros H.
  specialize (H blank_file_world "./my-docs" _ _ _ eq_refl eq_refl
                (text_entry "./my-docs/blank.txt" "   ") "   ").
  vm_compute in H.
  assert ({| raw_content := "   "; url := "blank.txt" |}
            ∈ [{| raw_content := "hello"; url := "a.txt" |}]) as Hin.
  { apply H; [left|reflexivity|reflexivity]. }
  apply list_elem_of_singleton in Hin. discriminate.
Qed.

(** C6 at work: a fresh store, two appends in lock-step around a persist
    and a search. *)
Lemma store_lockstep_invariant_witness :
  let ops := [@AppendBatch int_scalars [[1; 0]] (take 1 example_metas);
              @Persist int_scalars;
              @Search int_scalars example_query 2;
              @AppendBatch int_scalars [[0; 1]; [1; 1]] (drop 1 example_metas)] in
  ∃ s0 w0,
    LocalVectorStore_new 2 "local_docs.index" (fresh_world [] []) = (inr s0, w0) ∧
    consistent (foldl run_op (s0, w0) ops).1 ∧
    ntotal (index (foldl run_op (s0, w0) ops).1) = 3.
Proof.
  intros ops.
  pose (s0 := @Build_LocalVectorStore int_scalars 2 "local_docs.index"
                (IndexFlatIP_new 2) []).
  pose (w0 := set_stdout ["[INFO] Created new FAISS index (dim=2)."]
                (fresh_world [] [])).
  destruct (@store_lockstep_invariant int_scalars scripted_client
              2 "local_docs.index" (fresh_world [] []) s0 w0 ops)
    as (_ & Hc & _).
  - reflexivity.
  - intros ix m Hix. vm_compute in Hix. discriminate.
  - repeat constructor.
  - exists s0, w0. split; [reflexivity|]. split; [exact Hc|]. reflexivity.
Defined.

(** ** The second build *)

Section SecondBuild.
Context `{!Float32, !EmbeddingClient}.

Lemma append_nonempty_differs (s t : string) : t ≠ "" → s ≠ s +:+ t.
Proof.
  intros Ht Heq. apply Ht. induction s as [|c s IH]; [done|].
  apply IH. by injection Heq.
Qed.

(** [save] writes [index_path + ".faiss"] and [index_path + ".meta.json"];
    it never creates the path [index_path] that [__post_init__] tests. *)
Lemma save_never_creates_index_path (s : LocalVectorStore) (w : World) :
  fs w !! index_path s = None →
  fs (save s w).2 !! index_path s = None.
Proof.
  intros Hnone. rewrite save_run. unfold set_stdout, set_fs. cbn [snd fs].
  rewrite !lookup_insert_ne; [done|..];
    intros Heq; symmetry in Heq; by apply append_nonempty_differs in Heq.
Qed.

(** Without a file at the bare [index_path], the constructor never loads:
    whatever [save] wrote before, the store it returns is empty. *)
Lemma new_store_without_bare_path dim path (w : World) :
  fs w !! path = None → dirs w !! path = None →
  ∃ w0 s0,
    LocalVectorStore_new dim path w = (inr s0, w0) ∧
    xb (index s0) = [] ∧ doc_meta s0 = [].
Proof.
  intros Hfs Hdirs. unfold LocalVectorStore_new, __post_init__. run_m.
  rewrite Hfs, Hdirs. cbn. eauto.
Qed.

(** Whatever was persisted before, a call of the build path in a world
    with nothing at the bare index path (and a corpus with documents and
    the credential set) sends every chunk of the corpus to the provider,
    and leaves the corpus, the environment and the absence of the bare
    index path as they were: the next call does the same again. *)
Lemma build_path_always_embeds `{!Encoding} (w : World) entries :
  fs w !! "local_docs.index" = None →
  dirs w !! "local_docs.index" = None →
  dirs w !! "./my-docs" = Some entries →
  let docs := flat_map (file_docs (fitz_installed w)) entries in
  docs ≠ [] →
  default "" (environ w !! "OPENAI_API_KEY") ≠ "" →
  ∃ r w',
    ensure_vectorstore_build w = (r, w') ∧
    provider w' = (provider_run (provider w) (all_chunks docs).*2).2 ∧
    dirs w' = dirs w ∧
    fitz_installed w' = fitz_installed w ∧
    environ w' = environ w ∧
    fs w' !! "local_docs.index" = None.
Proof.
  intros Hfs Hbare Hdir docs Hdocs Hkey.
  destruct (new_store_without_bare_path 1536 "local_docs.index" w Hfs Hbare)
    as (w0 & s0 & Hnew & Hxb & Hmeta).
  destruct (new_store_only_prints _ _ _ _ _ Hnew) as [lines0 ->].
  unfold ensure_vectorstore_build. cbn zeta.
  rewrite (M_bind_run _ _ _ _ _ Hnew).
  unfold ntotal. rewrite Hxb, Hmeta.
  change ((0 <? len (@nil Meta)) && (0 <? len (@nil (list F)))) with false.
  cbv iota.
  erewrite (M_bind_run (print _)); [|reflexivity].
  erewrite M_bind_run; [|by apply DocumentLoader_load_run].
  cbn [fitz_installed set_stdout]. fold docs.
  rewrite (match_nonempty docs) by done.
  erewrite (M_bind_run (getenv _ _)); [|reflexivity].
  cbn [environ set_stdout]. rewrite bool_decide_false by done.
  erewrite M_bind_run; [|by apply embed_docs_run].
  cbn [provider set_stdout]. cbv beta iota.
  unfold mbind at 1, M_bind at 1, lift at 1.
  destruct (add_embeddings s0 _ _) as [e|s] eqn:Hadd.
  - eexists _, _. split; [reflexivity|]. by cbn.
  - assert (index_path s = "local_docs.index") as Hpath.
    { apply add_embeddings_appends in Hadd as [[_ ->]|(_ & _ & _ & _ & ->)];
        revert Hnew; unfold LocalVectorStore_new, __post_init__; run_m;
        rewrite Hfs, Hbare; cbn; by intros [= <-]. }
    erewrite M_bind_run; [|by apply save_run].
    erewrite (M_bind_run (print _)); [|reflexivity].
    eexists _, _. split; [reflexivity|]. rewrite Hpath. cbn.
    repeat (apply conj; [done|]). by simplify_map_eq.
Qed.

End SecondBuild.

(** C1, on the code: the second call of the build path does not find the
    store the first call persisted.  The first call embeds the one chunk of
    the corpus and writes both artifacts; nothing exists at the bare index
    path, so the second call creates a new empty index, runs the loader
    and the chunker again and calls the embedding provider once more. *)
Theorem second_build_embeds_again :
  let first := @ensure_vectorstore_build char_encoding _ _ one_doc_world in
  let second := @ensure_vectorstore_build char_encoding _ _ first.2 in
  @entry_count int_scalars first.1 = Some 1 ∧
  @stored_count int_scalars (fs first.2 !! "local_docs.index.faiss") = Some 1 ∧
  @stored_count int_scalars (fs first.2 !! "local_docs.index.meta.json") = Some 1 ∧
  @stored_count int_scalars (fs first.2 !! "local_docs.index") = None ∧
  @entry_count int_scalars second.1 = Some 1 ∧
  length (provider one_doc_world : list (exn + list Z)) = 2%nat ∧
  length (provider first.2 : list (exn + list Z)) = 1%nat ∧
  length (provider second.2 : list (exn + list Z)) = 0%nat ∧
  stdout second.2 =
    stdout first.2 ++
    ["[INFO] Created new FAISS index (dim=1536).";
     "[INFO] Building vector store from ./my-docs ...";
     "[INFO] Loaded 1 documents from './my-docs'.";
     "[INFO] Vector store saved to disk.";
     "[INFO] Store built with 1 chunks."].
Proof.
  cbv zeta. repeat (apply conj; [vm_compute; reflexivity|]).
  vm_compute; reflexivity.
Qed.

(** ** The retrieval entry point *)

Section RetrievalProofs.
Context `{!Encoding, !Float32, !EmbeddingClient}.

(** C8, as the entry point does it: [search_local_docs] never lets an
    exception through; it always returns a [Result].  When the store is
    not empty and the credential is missing, the result is the fixed message
    "No OPENAI_API_KEY. Cannot embed queries."; when the credential is
    set and the provider raises on the query, the result is
    "Error in RAG search: " followed by the text of the exception. *)
Theorem search_local_docs_never_raises (w : World) (query : string) (top_k : Z) :
  ∃ res w',
    search_local_docs query top_k w = (inr res, w') ∧
    ∀ store w1,
      ensure_vectorstore_build w = (inr store, w1) →
      ntotal (index store) ≠ 0 →
      (default "" (environ w1 !! "OPENAI_API_KEY") = "" →
         value res = "No OPENAI_API_KEY. Cannot embed queries.") ∧
      (default "" (environ w1 !! "OPENAI_API_KEY") ≠ "" →
         ∀ e p', embeddings_create (provider w1) query = (inl e, p') →
           value res = "Error in RAG search: " +:+ str e).
Proof.
  unfold search_local_docs, try_except. unfold mbind at 1, M_bind at 1.
  destruct (ensure_vectorstore_build w) as [[e|store] w1].
  { eexists _, _. split; [reflexivity|]. by intros ?? [=]. }
  destruct (Z.eqb_spec (ntotal (index store)) 0) as [Hz|Hnz].
  { eexists _, _. split; [reflexivity|]. by intros ?? [= <- <-] ?. }
  unfold mbind at 1, M_bind at 1, getenv at 1.
  destruct (decide (default "" (environ w1 !! "OPENAI_API_KEY") = "")) as [Hkey|Hkey].
  { rewrite bool_decide_true by done.
    eexists _, _. split; [reflexivity|]. by intros ?? [= <- <-] ?. }
  rewrite bool_decide_false by done.
  unfold mbind at 1, M_bind at 1, create_embedding at 1.
  destruct (embeddings_create (provider w1) query) as [[e|q_embed] p1] eqn:Hcall.
  { eexists _, _. split; [reflexivity|]. intros ?? [= <- <-] ?.
    split; [done|]. intros _ e' p' Hcall'. rewrite Hcall in Hcall'. by simplify_eq. }
  unfold mbind at 1, M_bind at 1, lift at 1.
  destruct (search store q_embed top_k) as [e|results].
  { eexists _, _. split; [reflexivity|]. intros ?? [= <- <-] ?.
    split; [done|]. intros _ e' p' Hcall'. rewrite Hcall in Hcall'. by simplify_eq. }
  destruct results as [|r results].
  - eexists _, _. split; [reflexivity|]. intros ?? [= <- <-] ?.
    split; [done|]. intros _ e' p' Hcall'. rewrite Hcall in Hcall'. by simplify_eq.
  - eexists _, _. split; [reflexivity|]. intros ?? [= <- <-] ?.
    split; [done|]. intros _ e' p' Hcall'. rewrite Hcall in Hcall'. by simplify_eq.
Qed.

End RetrievalProofs.

(** C8 as stated fails: the two ways the query embedding can fail give two
    different results, and the one for a provider that raises carries the
    text of the exception. *)
Lemma query_failure_gives_fixed_message_counterexample :
  ¬ @query_failure_gives_fixed_message char_encoding int_scalars scripted_client.
Proof.
  intros [message H].
  assert (message = "No OPENAI_API_KEY. Cannot embed queries.") as Hmissing.
  { pose proof (eq_refl : @entry_count int_scalars
        (@ensure_vectorstore_build char_encoding _ _ loaded_world_without_key).1
        = Some 3) as Hcount.
    pose proof (eq_refl : environ
        (@ensure_vectorstore_build char_encoding _ _ loaded_world_without_key).2
        !! "OPENAI_API_KEY" = None) as Henv.
    destruct (@ensure_vectorstore_build char_encoding _ _ loaded_world_without_key)
      as [[e|store] w1] eqn:Hbuild; [discriminate|].
    cbn in Hcount, Henv. injection Hcount as Hcount.
    specialize (H loaded_world_without_key "q" 3 store w1 Hbuild).
    specialize (H ltac:(lia)). unfold query_embedding_fails in H.
    rewrite Henv in H. specialize (H ltac:(by left)).
    vm_compute in H. by injection H. }
  assert (message = "Error in RAG search: Connection error.") as Hraised.
  { pose proof (eq_refl : @entry_count int_scalars
        (@ensure_vectorstore_build char_encoding _ _ failing_query_world).1
        = Some 1) as Hcount.
    pose proof (eq_refl : embeddings_create (provider
        (@ensure_vectorstore_build char_encoding _ _ failing_query_world).2) "q"
        = (inl (Exception "Connection error."), [])) as Hcall.
    destruct (@ensure_vectorstore_build char_encoding _ _ failing_query_world)
      as [[e|store] w1] eqn:Hbuild; [discriminate|].
    cbn in Hcount. injection Hcount as Hcount. cbn [snd] in Hcall.
    specialize (H failing_query_world "q" 3 store w1 Hbuild).
    specialize (H ltac:(lia) ltac:(right; eauto)).
    vm_compute in H. by injection H. }
  rewrite Hmissing in Hraised. discriminate.
Qed.

(** * Further properties of the pipeline *)

(** ** The chunker: coverage, overlap, strides that do not advance *)

Lemma concat_strides {A} (s n : nat) (l : list A) :
  (0 < s)%nat → (length l ≤ n * s)%nat →
  concat ((λ j, take s (drop (j * s) l)) <$> seq 0 n) = l.
Proof.
  intros Hs. revert l. induction n as [|n IH]; intros l Hl.
  - destruct l; [done|]. simpl in Hl. lia.
  - cbn [seq fmap list_fmap concat]. rewrite drop_0.
    rewrite <-fmap_S_seq, <-list_fmap_compose.
    rewrite (list_fmap_ext _ (λ j, take s (drop (j * s) (drop s l))) (seq 0 n)).
    + rewrite IH by (rewrite length_drop; lia). apply take_drop.
    + intros _ j _. cbn. rewrite drop_drop. do 2 f_equal; lia.
Qed.

Lemma take_stride_of_window {A} (l : list A) (s m : nat) :
  (Nat.min s (length l) ≤ m)%nat → take s (take m l) = take s l.
Proof.
  intros Hm. rewrite take_take.
  destruct (Nat.le_gt_cases s m) as [Hle|Hgt]; [by rewrite Nat.min_l|].
  rewrite Nat.min_r by lia. rewrite !take_ge by lia. done.
Qed.

(** X1: with [0 <= O < W] the windows lose nothing: the first [W - O]
    tokens of every window, concatenated in order, are the token stream. *)
Theorem chunk_windows_reassemble tokens W O fuel :
  0 ≤ O < W → (length tokens < fuel)%nat →
  ∃ ws,
    chunk_windows tokens W O fuel = Some ws ∧
    concat ((λ w : Z * list Z, take (Z.to_nat (W - O)) w.2) <$> ws) = tokens.
Proof.
  intros HO Hfuel. eexists. split; [apply chunk_loop_from_start; lia|].
  rewrite <-list_fmap_compose.
  set (n := Z.to_nat (ceil_div (len tokens) (W - O))).
  rewrite (list_fmap_ext _
    (λ j, take (Z.to_nat (W - O)) (drop (j * Z.to_nat (W - O)) tokens)) (seq 0 n)).
  - apply concat_strides; [lia|].
    pose proof (ceil_div_bounds (len tokens) (W - O) ltac:(lia)) as [_ Hhi].
    unfold n, len in *. nia.
  - intros j ? [-> Hj]%lookup_seq. cbn.
    pose proof (step_start_in_range (len tokens) (W - O) j ltac:(lia) Hj) as Hst.
    rewrite Z.add_0_l, py_slice_window by lia.
    replace (Z.to_nat (Z.of_nat j * (W - O))) with (j * Z.to_nat (W - O))%nat by lia.
    apply take_stride_of_window. rewrite length_drop. unfold len in *. lia.
Qed.

(** X1 at work. *)
Lemma chunk_windows_reassemble_witness :
  ∃ ws,
    chunk_windows [1; 2; 3; 4; 5; 6; 7] 3 1 8 = Some ws ∧
    concat ((λ w : Z * list Z, take 2 w.2) <$> ws) = [1; 2; 3; 4; 5; 6; 7].
Proof.
  destruct (chunk_windows_reassemble [1; 2; 3; 4; 5; 6; 7] 3 1 8)
    as (ws & H1 & H2); [lia|simpl; lia|].
  exists ws. split; [exact H1|exact H2].
Defined.

(** X2: with [0 <= O < W] consecutive windows overlap as configured: the
    next window starts [W - O] tokens later, and what a window holds past
    its first [W - O] tokens is what the next window starts with (its first
    [O] tokens, or all of it when it is shorter). *)
Theorem chunk_windows_overlap tokens W O fuel ws (j : nat) w1 w2 :
  0 ≤ O < W → (length tokens < fuel)%nat →
  chunk_windows tokens W O fuel = Some ws →
  ws !! j = Some w1 → ws !! S j = Some w2 →
  w2.1 = w1.1 + (W - O) ∧
  drop (Z.to_nat (W - O)) w1.2 = take (Z.to_nat O) w2.2.
Proof.
  intros HO Hfuel Hws H1 H2. unfold chunk_windows in Hws.
  rewrite chunk_loop_from_start in Hws by lia. injection Hws as <-.
  rewrite list_lookup_fmap in H1, H2.
  destruct (seq _ _ !! j) as [j1|] eqn:Hj1; [|done].
  destruct (seq _ _ !! S j) as [j2|] eqn:Hj2; [|done].
  apply lookup_seq in Hj1 as [-> Hj1]. apply lookup_seq in Hj2 as [-> Hj2].
  cbn in H1, H2. injection H1 as <-. injection H2 as <-.
  pose proof (step_start_in_range (len tokens) (W - O) j ltac:(lia) Hj1) as Hs1.
  pose proof (step_start_in_range (len tokens) (W - O) (S j) ltac:(lia) Hj2) as Hs2.
  unfold nth_emit. cbn [fst snd]. rewrite !Z.add_0_l. split; [lia|].
  rewrite !py_slice_window by lia.
  set (a := Z.to_nat (Z.of_nat j * (W - O))).
  replace (Z.to_nat (Z.of_nat (S j) * (W - O))) with (a + Z.to_nat (W - O))%nat
    by (unfold a; lia).
  apply list_eq. intros i.
  rewrite lookup_drop, !lookup_take, !lookup_drop.
  unfold len in *.
  repeat case_decide; try (f_equal; lia); try done.
  all: try (symmetry; apply lookup_ge_None; lia).
  all: try (apply lookup_ge_None; lia).
Qed.

(** X2 at work: windows of three with overlap one over seven tokens. *)
Lemma chunk_windows_overlap_witness :
  drop 2 [3; 4; 5] = take 1 ([5; 6; 7] : list Z).
Proof.
  destruct (chunk_windows_overlap [1; 2; 3; 4; 5; 6; 7] 3 1 8
              [(0, [1; 2; 3]); (2, [3; 4; 5]); (4, [5; 6; 7]); (6, [7])]
              1 (2, [3; 4; 5]) (4, [5; 6; 7]))
    as [_ H]; [lia|simpl; lia|reflexivity|reflexivity|reflexivity|].
  exact H.
Defined.

Section ChunkerEdges.
Context `{!Encoding}.

(** X3: with a stride that does not advance ([W <= O]) [chunk_text] returns
    only on a text without tokens, for which it returns no chunk; on any
    other text the loop never ends: no amount of fuel yields a result. *)
Theorem chunk_text_stuck_stride text W O :
  W ≤ O →
  (enc_encode text = [] → chunk_text text W O = Some []) ∧
  (enc_encode text ≠ [] → ∀ fuel, chunk_text_fuel fuel text W O = None).
Proof.
  intros HWO. split.
  - intros Hnil. unfold chunk_text, chunk_text_fuel. by rewrite Hnil.
  - intros Hne fuel. unfold chunk_text_fuel.
    apply chunk_loop_diverges; [lia|done|lia].
Qed.

End ChunkerEdges.

(** X3 at work: overlap equal to the window size. *)
Lemma chunk_text_stuck_stride_witness :
  @chunk_text char_encoding "" 3 3 = Some [] ∧
  @chunk_text_fuel char_encoding 1000 "abc" 3 3 = None.
Proof.
  destruct (@chunk_text_stuck_stride char_encoding "" 3 3 ltac:(lia)) as [H1 _].
  destruct (@chunk_text_stuck_stride char_encoding "abc" 3 3 ltac:(lia)) as [_ H2].
  split; [apply H1; reflexivity|apply H2; discriminate].
Defined.

(** ** The loader: what it returns, what it logs, what it leaves alone *)

Section LoaderEdges.
Context `{!Float32, !EmbeddingClient}.

Lemma elem_of_flat_map {A B} (f : A → list B) (l : list A) (y : B) :
  y ∈ flat_map f l ↔ ∃ x, x ∈ l ∧ y ∈ f x.
Proof.
  induction l as [|x l IH]; cbn.
  - split; [by intros ?%elem_of_nil|by intros (? & ?%elem_of_nil & _)].
  - rewrite elem_of_app, IH. split.
    + intros [Hy|(x' & Hx' & Hy)]; [exists x|exists x']; split;
        try done; by constructor.
    + intros (x' & [->|Hx']%elem_of_cons & Hy); [by left|right; eauto].
Qed.

Lemma length_flat_map_le {A B} (f : A → list B) (l : list A) :
  (∀ x, length (f x) ≤ 1)%nat → (length (flat_map f l) ≤ length l)%nat.
Proof.
  intros Hf. induction l as [|x l IH]; [done|]. cbn.
  rewrite length_app. specialize (Hf x). lia.
Qed.

(** The loader on any path in any world. *)
Lemma DocumentLoader_load_total path (w : World) :
  DocumentLoader_load path w =
    (inr (loaded_docs w path), set_stdout (stdout w ++ loader_log w path) w).
Proof.
  unfold loader_log, loaded_docs.
  destruct (dirs w !! path) as [entries|] eqn:Hdir.
  - by rewrite (DocumentLoader_load_run _ _ _ Hdir).
  - by rewrite (DocumentLoader_load_missing _ _ Hdir).
Qed.

(** X4: the loader never raises and touches nothing but the standard
    output, on which it prints at least one line; when [path] is not a
    directory it returns the empty list. *)
Theorem loader_only_prints path (w : World) :
  ∃ docs lines,
    DocumentLoader_load path w = (inr docs, set_stdout (stdout w ++ lines) w) ∧
    lines ≠ [] ∧
    (dirs w !! path = None → docs = []).
Proof.
  exists (loaded_docs w path), (loader_log w path).
  split; [apply DocumentLoader_load_total|]. unfold loader_log, loaded_docs.
  destruct (dirs w !! path); split; try done.
  by intros [? ?]%app_eq_nil.
Qed.

Lemma file_docs_cases fitz fe d :
  d ∈ file_docs fitz fe →
  url d = basename (fe_path fe) ∧ strip (raw_content d) ≠ "" ∧
  ((is_text_file fe = true ∧ fe_read fe = inr (raw_content d)) ∨
   (is_text_file fe = false ∧ is_pdf_file fe = true ∧ fitz = true ∧
    ∃ pages, fe_pages fe = inr pages ∧ raw_content d = join nl pages)).
Proof.
  unfold file_docs. destruct (is_text_file fe).
  - destruct (fe_read fe) as [e|text]; [by intros ?%elem_of_nil|].
    case_bool_decide; [|by intros ?%elem_of_nil].
    intros ->%list_elem_of_singleton. cbn. eauto.
  - destruct (is_pdf_file fe); [|by intros ?%elem_of_nil].
    destruct fitz; [|by intros ?%elem_of_nil].
    destruct (fe_pages fe) as [e|pages]; [by intros ?%elem_of_nil|].
    case_bool_decide; [|by intros ?%elem_of_nil].
    intros ->%list_elem_of_singleton. cbn. split; [done|]. split; [done|].
    right. eauto 10.
Qed.

Lemma file_docs_length fitz fe : (length (file_docs fitz fe) ≤ 1)%nat.
Proof.
  unfold file_docs.
  repeat (first [case_bool_decide | case_match]); cbn; lia.
Qed.

(** X5: every document the loader returns has text that is not blank, is
    named by the base filename of an enumerated file, and holds either the
    text read from a file with a plain-text extension or, with PyMuPDF
    installed, the pages of a [.pdf] file joined by newlines; there is at
    most one document per enumerated file. *)
Theorem loader_docs_provenance path (w : World) entries :
  dirs w !! path = Some entries →
  ∃ docs w',
    DocumentLoader_load path w = (inr docs, w') ∧
    (length docs ≤ length entries)%nat ∧
    ∀ d, d ∈ docs →
      strip (raw_content d) ≠ "" ∧
      ∃ fe, fe ∈ entries ∧ url d = basename (fe_path fe) ∧
        ((is_text_file fe = true ∧ fe_read fe = inr (raw_content d)) ∨
         (is_text_file fe = false ∧ is_pdf_file fe = true ∧
          fitz_installed w = true ∧
          ∃ pages, fe_pages fe = inr pages ∧ raw_content d = join nl pages)).
Proof.
  intros Hdir. eexists _, _. split; [apply DocumentLoader_load_total|].
  unfold loaded_docs. rewrite Hdir. split.
  - apply length_flat_map_le, file_docs_length.
  - intros d (fe & Hfe & Hd)%elem_of_flat_map.
    apply file_docs_cases in Hd as (Hurl & Hnb & Hkind). eauto 10.
Qed.

(** X6: a file that cannot be read or decoded, and a [.pdf] while PyMuPDF
    is missing, does not stop the loader: it prints the error (or the
    warning) for that file and still returns the documents of all the
    other files. *)
Theorem loader_logs_and_skips path (w : World) entries :
  dirs w !! path = Some entries →
  ∃ docs w',
    DocumentLoader_load path w = (inr docs, w') ∧
    docs = flat_map (file_docs (fitz_installed w)) entries ∧
    ∀ fe, fe ∈ entries →
      (is_text_file fe = true → ∀ e, fe_read fe = inl e →
         file_docs (fitz_installed w) fe = [] ∧
         "[ERROR] Failed to load " +:+ fe_path fe +:+ ": " +:+ str e ∈ stdout w') ∧
      (is_text_file fe = false → is_pdf_file fe = true →
         fitz_installed w = false →
         file_docs (fitz_installed w) fe = [] ∧
         "[WARN] PyMuPDF not installed, skipping PDF '" +:+ fe_path fe +:+ "'."
           ∈ stdout w') ∧
      (is_text_file fe = false → is_pdf_file fe = true →
         fitz_installed w = true → ∀ e, fe_pages fe = inl e →
         file_docs (fitz_installed w) fe = [] ∧
         "[ERROR] Failed to load PDF " +:+ fe_path fe +:+ ": " +:+ str e ∈ stdout w') ∧
      (is_text_file fe = false → is_pdf_file fe = false →
         file_docs (fitz_installed w) fe = [] ∧ file_log (fitz_installed w) fe = []).
Proof.
  intros Hdir. eexists _, _. split; [apply DocumentLoader_load_total|].
  unfold loader_log, loaded_docs. rewrite Hdir. split; [done|].
  intros fe Hfe. cbn [stdout set_stdout].
  assert (∀ line, line ∈ file_log (fitz_installed w) fe →
            line ∈ stdout w ++ flat_map (file_log (fitz_installed w)) entries ++
              ["[INFO] Loaded " +:+
               pretty (length (flat_map (file_docs (fitz_installed w)) entries)) +:+
               " documents from '" +:+ path +:+ "'."]) as Hlog.
  { intros line Hline. rewrite !elem_of_app. right. left.
    apply elem_of_flat_map. eauto. }
  unfold file_docs, file_log in *.
  split; [|split; [|split]].
  - intros Ht e He. split; [by rewrite Ht, He|].
    apply Hlog. rewrite Ht, He. by apply list_elem_of_singleton.
  - intros Ht Hp Hf. split; [by rewrite Ht, Hp, Hf|].
    apply Hlog. rewrite Ht, Hp, Hf. by apply list_elem_of_singleton.
  - intros Ht Hp Hf e He. split; [by rewrite Ht, Hp, Hf, He|].
    apply Hlog. rewrite Ht, Hp, Hf, He. by apply list_elem_of_singleton.
  - intros Ht Hp. by rewrite Ht, Hp.
Qed.

End LoaderEdges.

(** X5 at work: of four files only the text file yields a document. *)
Lemma loader_docs_provenance_witness :
  ∃ docs w',
    DocumentLoader_load "./my-docs" mixed_corpus_world = (inr docs, w') ∧
    (length docs ≤ 4)%nat.
Proof.
  destruct (loader_docs_provenance "./my-docs" mixed_corpus_world mixed_entries)
    as (docs & w' & Hload & Hlen & _); [reflexivity|].
  exists docs, w'. split; [exact Hload|exact Hlen].
Defined.

(** X6 at work: the undecodable file and the PDF are logged and skipped. *)
Lemma loader_logs_and_skips_witness :
  ∃ docs w',
    DocumentLoader_load "./my-docs" mixed_corpus_world = (inr docs, w') ∧
    docs = [{| raw_content := "hello"; url := "A.TXT" |}].
Proof.
  destruct (loader_logs_and_skips "./my-docs" mixed_corpus_world mixed_entries)
    as (docs & w' & Hload & Hdocs & _); [reflexivity|].
  exists docs, w'. split; [exact Hload|]. rewrite Hdocs. reflexivity.
Defined.

(** ** The store: batches, construction, persistence *)

Section StoreEdges.
Context `{!Float32, !EmbeddingClient}.

Lemma add_embeddings_rejects (s : LocalVectorStore) embeddings metas :
  embeddings ≠ [] → ¬ Forall (λ v, len v = d (index s)) embeddings →
  ∃ e, add_embeddings s embeddings metas = inl e.
Proof.
  intros Hne Hnot. destruct embeddings as [|v vs]; [done|].
  unfold add_embeddings, np_array.
  destruct (forallb _ vs) eqn:Hsame; [|cbn; eauto].
  cbn. unfold faiss_add, guard_or. cbn. case_bool_decide as Hv; [|cbn; eauto].
  exfalso. apply Hnot. constructor; [done|].
  apply Forall_forall. intros v' Hv'%list_elem_of_In.
  rewrite forallb_forall in Hsame. specialize (Hsame v' Hv').
  apply bool_decide_eq_true in Hsame. unfold len in *. lia.
Qed.

(** X7: [add_embeddings] raises exactly on a non-empty batch in which some
    vector is not of the index's dimension: ragged rows fail in numpy, a
    uniform but wrong width fails the index's assertion. *)
Theorem add_embeddings_raises_iff (s : LocalVectorStore) embeddings metas :
  (∃ e, add_embeddings s embeddings metas = inl e) ↔
  embeddings ≠ [] ∧ ¬ Forall (λ v, len v = d (index s)) embeddings.
Proof.
  split.
  - intros [e He]. split; [by intros ->|].
    intros Hall.
    destruct embeddings as [|v vs]; [done|].
    unfold add_embeddings in He.
    rewrite (np_array_same_length _ _ Hall) in He. cbn in He.
    apply Forall_cons in Hall as [Hv _]. unfold faiss_add, guard_or in He.
    cbn in He. by rewrite bool_decide_true in He.
  - intros [Hne Hnot]. by apply add_embeddings_rejects.
Qed.

(** X8: [add_embeddings] does not compare the lengths of its two lists.
    An empty [embeddings] returns at once and drops the metadata passed
    with it; a non-empty batch that is accepted appends every vector and
    every metadata entry, so a consistent store stays consistent exactly
    when the two lists have the same length. *)
Theorem add_embeddings_unchecked_lengths (s s' : LocalVectorStore) embeddings metas :
  consistent s →
  add_embeddings s embeddings metas = inr s' →
  (embeddings = [] → s' = s) ∧
  (embeddings ≠ [] → (consistent s' ↔ length embeddings = length metas)).
Proof.
  intros Hc Hadd. destruct embeddings as [|v vs].
  - cbn in Hadd. injection Hadd as <-. done.
  - split; [done|]. intros _.
    apply add_embeddings_appends in Hadd as [[? _]|(Hxb & Hm & _)]; [done|].
    unfold consistent, ntotal, len in *. rewrite Hxb, Hm, !length_app. lia.
Qed.

End StoreEdges.

(** X8 at work: one vector with two metadata entries breaks the lock-step. *)
Lemma add_embeddings_unchecked_lengths_witness :
  ∃ s',
    add_embeddings example_store [[2; 2]] (take 2 example_metas) = inr s' ∧
    ¬ consistent s'.
Proof.
  eexists. split; [reflexivity|].
  destruct (add_embeddings_unchecked_lengths example_store _ [[2; 2]]
              (take 2 example_metas) eq_refl eq_refl) as [_ H].
  intros Hc. apply H in Hc; [|discriminate]. discriminate.
Defined.

Section ConstructionEdges.
Context `{!Float32, !EmbeddingClient}.

Lemma constructor_loads dim path (w : World) ix m :
  is_Some (fs w !! path) ∨ is_Some (dirs w !! path) →
  fs w !! (path +:+ ".faiss") = Some (FaissFile ix) →
  fs w !! (path +:+ ".meta.json") = Some (JsonFile m) →
  ∃ w', LocalVectorStore_new dim path w =
          (inr {| dimension := dim; index_path := path;
                  index := ix; doc_meta := m |}, w').
Proof.
  intros Hex Hix Hm. unfold LocalVectorStore_new, __post_init__.
  unfold mbind at 1, M_bind at 1, path_exists at 1. cbn [index_path].
  assert (bool_decide (is_Some (fs w !! path)) ||
          bool_decide (is_Some (dirs w !! path)) = true) as ->.
  { destruct Hex; [rewrite bool_decide_true by done|
                   rewrite (bool_decide_true (is_Some (dirs w !! path))) by done];
      by rewrite ?orb_true_r. }
  match goal with |- context [_load_index ?self w] =>
    destruct (load_index_run self w ix m Hix Hm) as [w' ->] end.
  eauto.
Qed.

(** X9: the constructor decides by the bare [index_path] alone.  With
    nothing there it returns a new empty index of the requested dimension
    (one that fits a C [int]) and reads no file.  With something there it
    reads both artifacts: it returns exactly what they hold, whatever
    dimension was requested, and raises when either artifact is missing:
    there is no fallback to an empty store. *)
Theorem constructor_outcomes dim path (w : World) :
  (fs w !! path = None → dirs w !! path = None → 0 < dim < 2 ^ 31 →
   ∃ w', LocalVectorStore_new dim path w =
           (inr {| dimension := dim; index_path := path;
                   index := {| d := dim; xb := [] |}; doc_meta := [] |}, w')) ∧
  (is_Some (fs w !! path) ∨ is_Some (dirs w !! path) →
   (∀ ix m,
      fs w !! (path +:+ ".faiss") = Some (FaissFile ix) →
      fs w !! (path +:+ ".meta.json") = Some (JsonFile m) →
      ∃ w', LocalVectorStore_new dim path w =
              (inr {| dimension := dim; index_path := path;
                      index := ix; doc_meta := m |}, w')) ∧
   (fs w !! (path +:+ ".faiss") = None ∨ fs w !! (path +:+ ".meta.json") = None →
    ∃ e w', LocalVectorStore_new dim path w = (inl e, w'))).
Proof.
  split.
  - intros Hfs Hdirs _. unfold LocalVectorStore_new, __post_init__. run_m.
    rewrite Hfs, Hdirs. cbn. eauto.
  - intros Hex.
    assert (bool_decide (is_Some (fs w !! path)) ||
            bool_decide (is_Some (dirs w !! path)) = true) as Hfound.
    { destruct Hex; [rewrite bool_decide_true by done|
                     rewrite (bool_decide_true (is_Some (dirs w !! path))) by done];
        by rewrite ?orb_true_r. }
    split; [intros ix m; by apply constructor_loads|].
    intros Hmissing. unfold LocalVectorStore_new, __post_init__.
    unfold mbind at 1, M_bind at 1, path_exists at 1. cbn [index_path].
    rewrite Hfound.
    match goal with |- context [_load_index ?self w] =>
      destruct (_load_index self w) as [[e|s] w'] eqn:Hload end; [eauto|].
    apply load_index_inv in Hload as (ix & m & Hix & Hm & _).
    cbn in Hix, Hm. exfalso. destruct Hmissing as [Hno|Hno]; congruence.
Qed.

(** X10: when [save] returns it has written the two artifacts and nothing
    else: they hold the store's index and metadata, and every other path,
    the corpus, the environment and the provider are as they were.  The two
    files hold the same number of entries exactly when the store saved was
    consistent. *)
Theorem save_writes_only_artifacts (s : LocalVectorStore) (w w' : World) :
  save s w = (inr (), w') →
  fs w' !! (index_path s +:+ ".faiss") = Some (FaissFile (index s)) ∧
  fs w' !! (index_path s +:+ ".meta.json") = Some (JsonFile (doc_meta s)) ∧
  (∀ p, p ≠ index_path s +:+ ".faiss" → p ≠ index_path s +:+ ".meta.json" →
     fs w' !! p = fs w !! p) ∧
  dirs w' = dirs w ∧
  environ w' = environ w ∧
  provider w' = provider w ∧
  (consistent s ↔
   stored_count (fs w' !! (index_path s +:+ ".faiss")) =
   stored_count (fs w' !! (index_path s +:+ ".meta.json"))).
Proof.
  rewrite save_run. intros [= <-].
  unfold set_stdout, set_fs. cbn [fs dirs environ provider].
  pose proof (backing_paths_differ (index_path s)) as Hne.
  assert (∀ (f : gmap string File),
    <[index_path s +:+ ".meta.json" := JsonFile (doc_meta s)]>
      (<[index_path s +:+ ".faiss" := FaissFile (index s)]> f)
      !! (index_path s +:+ ".faiss") = Some (FaissFile (index s))) as Hix.
  { intros f. rewrite lookup_insert_ne by done. apply lookup_insert_eq. }
  rewrite Hix, lookup_insert_eq.
  repeat (split; [done|]). split; [|split; [done|split; [done|split; [done|]]]].
  - intros p Hp1 Hp2. by rewrite !lookup_insert_ne.
  - cbn. unfold consistent. split; [by intros ->|by intros [= ->]].
Qed.

(** X11: once something exists at the bare [index_path], construction
    after [save] gives back the saved store: the same index and the same
    metadata, whatever dimension is requested, hence the same [search]
    results for every query and [k]. *)
Theorem constructor_reloads_saved_store (s : LocalVectorStore) (w : World) dim :
  is_Some (fs w !! index_path s) →
  ∃ s' w',
    LocalVectorStore_new dim (index_path s) (save s w).2 = (inr s', w') ∧
    index s' = index s ∧ doc_meta s' = doc_meta s ∧
    ∀ q k, search s' q k = search s q k.
Proof.
  intros Hbare. rewrite save_run. cbn [snd].
  pose proof (backing_paths_differ (index_path s)) as Hne.
  match goal with |- context [LocalVectorStore_new dim ?p ?w1] =>
    destruct (constructor_loads dim p w1 (index s) (doc_meta s)) as [w' Hnew]
  end.
  - left. unfold set_stdout, set_fs. cbn [fs].
    rewrite !lookup_insert_ne; [done|..];
      intros Heq; symmetry in Heq; by apply append_nonempty_differs in Heq.
  - unfold set_stdout, set_fs. cbn [fs].
    rewrite lookup_insert_ne by done. apply lookup_insert_eq.
  - unfold set_stdout, set_fs. cbn [fs]. apply lookup_insert_eq.
  - eexists _, w'. split; [exact Hnew|]. done.
Qed.

End ConstructionEdges.

(** X11 at work: a file at the bare index path makes the reload happen. *)
Lemma constructor_reloads_saved_store_witness :
  ∃ s' w',
    LocalVectorStore_new 1536 "local_docs.index"
      (save example_store loaded_world_without_key).2 = (inr s', w') ∧
    index s' = index example_store ∧ doc_meta s' = doc_meta example_store.
Proof.
  destruct (constructor_reloads_saved_store example_store
              loaded_world_without_key 1536)
    as (s' & w' & Hnew & Hix & Hm & _).
  - eexists. reflexivity.
  - exists s', w'. split; [exact Hnew|]. split; [exact Hix|exact Hm].
Defined.

(** X9 at work: a file at the bare path and no artifact: construction
    raises. *)
Lemma constructor_outcomes_witness :
  ∃ e w', LocalVectorStore_new 1536 "local_docs.index" bare_path_only_world = (inl e, w').
Proof.
  destruct (constructor_outcomes 1536 "local_docs.index" bare_path_only_world)
    as [_ Hthere].
  destruct Hthere as [_ Hraise]; [left; by eexists|].
  apply Hraise. left. reflexivity.
Defined.

(** X10 at work: the three vectors of the example store behind the index
    artifact. *)
Lemma save_writes_only_artifacts_witness :
  @stored_count int_scalars
    (fs (save example_store (fresh_world [] [])).2 !! "local_docs.index.faiss") = Some 3.
Proof.
  destruct (save_writes_only_artifacts example_store (fresh_world [] [])
              (save example_store (fresh_world [] [])).2 eq_refl) as [Hix _].
  change (index_path example_store +:+ ".faiss") with "local_docs.index.faiss" in Hix.
  rewrite Hix. reflexivity.
Defined.

(** ** Persist and construct: the round trip the program performs *)

Section RoundTrip.
Context `{!Float32, !EmbeddingClient}.

(** A store without metadata gives no hit, whatever the query and [k]. *)
Lemma search_no_metadata_no_hit (s : LocalVectorStore) (q : list F) (k : Z) r rs :
  doc_meta s = [] → search s q k ≠ inr (r :: rs).
Proof.
  intros Hm Hs.
  destruct (decide (len q = d (index s))) as [Hq|Hq];
    [|by rewrite search_wrong_dimension in Hs].
  destruct (Z.ltb_spec 0 k) as [Hk|Hk].
  - rewrite search_inr in Hs by (done || lia). rewrite Hm in Hs.
    assert (∀ l : list (F * Z), omap (hit_of_row ([] : list Meta)) l = []) as Hnil.
    { induction l as [|x l IH]; [done|].
      rewrite omap_cons, hit_of_row_skip; [done|]. unfold len. cbn. lia. }
    by rewrite Hnil in Hs.
  - unfold search, faiss_search in Hs. rewrite bool_decide_true in Hs by done.
    destruct (Z.ltb_spec 0 k); [lia|]. done.
Qed.

(** C5: the round trip fails as the program performs it.  Load is the
    construction of a store at the same [index_path]; [save] writes the
    two artifacts and never the bare [index_path] that the constructor
    tests, so with nothing at that path the constructor does not read what
    was saved: both artifacts hold the saved store, the store constructed
    is empty, and [search] on it differs from [search] on the saved store
    for every query and [k] on which the saved store returned a hit. *)
Theorem save_then_construct_loses_store (s : LocalVectorStore) (w : World)
    (dim : Z) (q : list F) (k : Z) r rs :
  fs w !! index_path s = None → dirs w !! index_path s = None →
  0 < dim < 2 ^ 31 →
  search s q k = inr (r :: rs) →
  ∃ s' w',
    LocalVectorStore_new dim (index_path s) (save s w).2 = (inr s', w') ∧
    fs (save s w).2 !! (index_path s +:+ ".faiss") = Some (FaissFile (index s)) ∧
    fs (save s w).2 !! (index_path s +:+ ".meta.json") = Some (JsonFile (doc_meta s)) ∧
    xb (index s') = [] ∧ doc_meta s' = [] ∧
    search s' q k ≠ search s q k.
Proof.
  intros Hfs Hdirs _ Hhit.
  destruct (new_store_without_bare_path dim (index_path s) (save s w).2)
    as (w' & s' & Hnew & Hxb & Hmeta).
  { by apply save_never_creates_index_path. }
  { by rewrite save_run. }
  exists s', w'. split; [done|].
  pose proof (backing_paths_differ (index_path s)) as Hne.
  rewrite save_run. unfold set_stdout, set_fs. cbn [snd fs].
  split; [rewrite lookup_insert_ne by done; apply lookup_insert_eq|].
  split; [apply lookup_insert_eq|].
  split; [done|]. split; [done|].
  rewrite Hhit. by apply search_no_metadata_no_hit.
Qed.

End RoundTrip.

(** C5 at work: the example store is saved in an empty working directory
    and a store is constructed at the same path: it is empty. *)
Lemma save_then_construct_loses_store_witness :
  ∃ s' w',
    LocalVectorStore_new 2 "local_docs.index"
      (save example_store (fresh_world [] [])).2 = (inr s', w') ∧
    doc_meta s' = [] ∧
    search s' example_query 1 ≠ search example_store example_query 1.
Proof.
  assert (∃ r rs, search example_store example_query 1 = inr (r :: rs))
    as (r & rs & Hhit).
  { eexists _, _. vm_compute. reflexivity. }
  destruct (save_then_construct_loses_store example_store (fresh_world [] [])
              2 example_query 1 r rs)
    as (s' & w' & Hnew & _ & _ & _ & Hmeta & Hdiff).
  - reflexivity.
  - reflexivity.
  - lia.
  - exact Hhit.
  - exists s', w'. split; [exact Hnew|]. split; [exact Hmeta|exact Hdiff].
Defined.

(** Whitespace outside ASCII is whitespace to [strip], and the last byte of
    a letter is not taken for one: U+00A0 U+3000 is blank, and "a-grave"
    (C3 A0) between a space and U+00A0 is kept. *)
Lemma strip_unicode_whitespace :
  strip unicode_blank = "" ∧
  strip (of_chars (ascii_of_nat <$> [32; 195; 160; 194; 160]%nat)) =
    of_chars (ascii_of_nat <$> [195; 160]%nat).
Proof. split; reflexivity. Qed.

(** A text file that holds such whitespace only yields no document. *)
Lemma loader_drops_unicode_blank_file :
  (DocumentLoader_load "./my-docs" unicode_blank_world).1 = inr [].
Proof. reflexivity. Qed.

Section SearchEdges.
Context `{!Float32}.

(** On a consistent, non-empty store the rows that [search] keeps for
    [k >= 1] are not all skipped. *)
Lemma kept_rows_nonempty (s : LocalVectorStore) (q : list F) (k : Z) :
  consistent s → ntotal (index s) ≠ 0 → 1 ≤ k →
  omap (hit_of_row (doc_meta s)) (take (Z.to_nat k) (ranked (index s) q)) ≠ [].
Proof.
  intros Hc Hn Hk.
  set (top := take (Z.to_nat k) (ranked (index s) q)).
  assert (Forall (λ r, r ∈ ranked (index s) q) top) as Htop.
  { apply Forall_forall. intros r Hr. by eapply subseteq_take. }
  pose proof (Forall2_length _ _ _ (hits_of_ranked_rows s q top Hc Htop)) as Hlen.
  assert (length top ≠ 0)%nat as Hpos.
  { unfold top. rewrite length_take, ranked_length.
    unfold ntotal, len in Hn. lia. }
  destruct (omap (hit_of_row (doc_meta s)) top) as [|r rs]; [cbn in Hlen; lia|done].
Qed.

(** X12: on a store that is consistent and not empty, [search] with a
    query of the index's dimension and [k >= 1] returns at least one hit:
    the empty answer can only come from a store whose metadata and index
    disagree. *)
Theorem search_finds_a_hit (s : LocalVectorStore) (q : list F) (k : Z) :
  consistent s → ntotal (index s) ≠ 0 → len q = d (index s) → 1 ≤ k →
  ∃ r rs, search s q k = inr (r :: rs).
Proof.
  intros Hc Hn Hq Hk. rewrite search_inr by done.
  pose proof (kept_rows_nonempty s q k Hc Hn Hk) as Hne.
  destruct (omap _ _) as [|r rs]; [done|eauto].
Qed.

(** The empty answer on a store whose metadata list is empty. *)
Lemma search_without_metadata (s : LocalVectorStore) (q : list F) (k : Z) :
  doc_meta s = [] → len q = d (index s) → 1 ≤ k → search s q k = inr [].
Proof.
  intros Hm Hq Hk. rewrite search_inr by done. rewrite Hm.
  induction (take _ _) as [|r l IH]; [done|].
  rewrite omap_cons, hit_of_row_skip; [done|].
  unfold len. cbn. lia.
Qed.

End SearchEdges.

(** X12 at work. *)
Lemma search_finds_a_hit_witness :
  ∃ r rs, search example_store example_query 1 = inr (r :: rs).
Proof.
  apply (search_finds_a_hit example_store example_query 1);
    [reflexivity|discriminate|reflexivity|lia].
Defined.

(** ** The build path: the branches that do not embed, and the ones that fail *)

(** The steps of [ensure_vectorstore_build] up to the loader's return, for a
    constructed store that does not pass the reuse test. *)
Ltac enter_build Hnew Htest :=
  unfold ensure_vectorstore_build; cbn zeta;
  rewrite (M_bind_run _ _ _ _ _ Hnew);
  rewrite Htest;
  erewrite (M_bind_run (print _)); [|reflexivity];
  erewrite M_bind_run; [|apply DocumentLoader_load_total];
  unfold loaded_docs at 1; cbn [dirs fitz_installed set_stdout].

Section BuildEdges.
Context `{!Encoding, !Float32, !EmbeddingClient}.

Lemma loader_result_frame path (w : World) o :
  (DocumentLoader_load path (set_stdout o w)).1 = (DocumentLoader_load path w).1.
Proof. by rewrite !DocumentLoader_load_total. Qed.

Lemma loader_result path (w : World) docs :
  (DocumentLoader_load path w).1 = inr docs → loaded_docs w path = docs.
Proof. rewrite DocumentLoader_load_total. by intros [= ->]. Qed.

Lemma build_without_documents_run (w : World) s0 lines0 :
  LocalVectorStore_new 1536 "local_docs.index" w =
    (inr s0, set_stdout (stdout w ++ lines0) w) →
  (0 <? len (doc_meta s0)) && (0 <? ntotal (index s0)) = false →
  loaded_docs w "./my-docs" = [] →
  ensure_vectorstore_build w =
    (inr s0,
     set_stdout (stdout w ++ lines0 ++
                 ["[INFO] Building vector store from ./my-docs ..."] ++
                 loader_log w "./my-docs" ++
                 ["[WARN] No docs in ./my-docs. Store will be empty."]) w).
Proof.
  intros Hnew Htest Hdocs. enter_build Hnew Htest.
  fold (loaded_docs w "./my-docs"). rewrite Hdocs.
  erewrite (M_bind_run (print _)); [|reflexivity].
  unfold mret, M_ret, set_stdout, loader_log, loaded_docs. cbn.
  by rewrite <-!app_assoc.
Qed.

Lemma build_without_credential_run (w : World) s0 lines0 :
  LocalVectorStore_new 1536 "local_docs.index" w =
    (inr s0, set_stdout (stdout w ++ lines0) w) →
  (0 <? len (doc_meta s0)) && (0 <? ntotal (index s0)) = false →
  loaded_docs w "./my-docs" ≠ [] →
  default "" (environ w !! "OPENAI_API_KEY") = "" →
  ensure_vectorstore_build w =
    (inr s0,
     set_stdout (stdout w ++ lines0 ++
                 ["[INFO] Building vector store from ./my-docs ..."] ++
                 loader_log w "./my-docs" ++
                 ["[ERROR] No OPENAI_API_KEY. Cannot embed."]) w).
Proof.
  intros Hnew Htest Hdocs Hkey. enter_build Hnew Htest.
  fold (loaded_docs w "./my-docs"). rewrite (match_nonempty _ _ _ Hdocs).
  erewrite (M_bind_run (getenv _ _)); [|reflexivity].
  cbn [environ set_stdout]. rewrite bool_decide_true by done.
  erewrite (M_bind_run (print _)); [|reflexivity].
  unfold mret, M_ret, set_stdout, loader_log, loaded_docs. cbn.
  by rewrite <-!app_assoc.
Qed.

Lemma reuse_test_fails (s0 : LocalVectorStore) :
  doc_meta s0 = [] ∨ xb (index s0) = [] →
  (0 <? len (doc_meta s0)) && (0 <? ntotal (index s0)) = false.
Proof.
  unfold ntotal. intros [-> | ->]; cbn; [done|]. apply andb_false_r.
Qed.

(** X13: when the store constructed is empty and the loader returns no
    document (no corpus directory, or nothing loadable in it), the build
    returns that store as it is: no file is written, the provider is not
    called, and nothing but the standard output changes, which ends with
    the warning that the store will be empty. *)
Theorem build_without_documents (w : World) s0 w0 :
  LocalVectorStore_new 1536 "local_docs.index" w = (inr s0, w0) →
  doc_meta s0 = [] ∨ xb (index s0) = [] →
  (DocumentLoader_load "./my-docs" w).1 = inr [] →
  ∃ lines,
    ensure_vectorstore_build w = (inr s0, set_stdout (stdout w ++ lines) w) ∧
    last lines = Some "[WARN] No docs in ./my-docs. Store will be empty.".
Proof.
  intros Hnew Hempty Hdocs%loader_result.
  destruct (new_store_only_prints _ _ _ _ _ Hnew) as [lines0 ->].
  eexists. split.
  - by apply build_without_documents_run; [|apply reuse_test_fails|].
  - by rewrite !app_assoc, last_snoc.
Qed.

(** X14: when the store constructed is empty, the loader returns documents
    and [OPENAI_API_KEY] is unset or empty, the build returns the store as
    it is: the provider is not called, no file is written, and nothing but
    the standard output changes, which ends with the error line. *)
Theorem build_without_credential (w : World) s0 w0 docs :
  LocalVectorStore_new 1536 "local_docs.index" w = (inr s0, w0) →
  doc_meta s0 = [] ∨ xb (index s0) = [] →
  (DocumentLoader_load "./my-docs" w).1 = inr docs → docs ≠ [] →
  default "" (environ w !! "OPENAI_API_KEY") = "" →
  ∃ lines,
    ensure_vectorstore_build w = (inr s0, set_stdout (stdout w ++ lines) w) ∧
    last lines = Some "[ERROR] No OPENAI_API_KEY. Cannot embed.".
Proof.
  intros Hnew Hempty Hdocs%loader_result Hne Hkey.
  destruct (new_store_only_prints _ _ _ _ _ Hnew) as [lines0 ->].
  eexists. split.
  - apply build_without_credential_run; [done|by apply reuse_test_fails| |done].
    by rewrite Hdocs.
  - by rewrite !app_assoc, last_snoc.
Qed.

End BuildEdges.

(** X13 at work: a corpus of one blank file gives the empty store back,
    with the warning as the last line printed. *)
Lemma build_without_documents_witness :
  ∃ s lines,
    @ensure_vectorstore_build char_encoding _ _ blank_corpus_world =
      (inr s, set_stdout (stdout blank_corpus_world ++ lines) blank_corpus_world) ∧
    last lines = Some "[WARN] No docs in ./my-docs. Store will be empty.".
Proof.
  edestruct (@build_without_documents char_encoding _ _ blank_corpus_world)
    as (lines & Hrun & Hlast).
  - reflexivity.
  - left. reflexivity.
  - reflexivity.
  - eexists _, lines. split; [exact Hrun|exact Hlast].
Defined.

(** X14 at work: with one document and no credential the empty store comes
    back, with the error line as the last line printed. *)
Lemma build_without_credential_witness :
  ∃ s lines,
    @ensure_vectorstore_build char_encoding _ _ no_key_world =
      (inr s, set_stdout (stdout no_key_world ++ lines) no_key_world) ∧
    last lines = Some "[ERROR] No OPENAI_API_KEY. Cannot embed.".
Proof.
  edestruct (@build_without_credential char_encoding _ _ no_key_world)
    as (lines & Hrun & Hlast).
  - reflexivity.
  - left. reflexivity.
  - reflexivity.
  - discriminate.
  - reflexivity.
  - eexists _, lines. split; [exact Hrun|exact Hlast].
Defined.

(** Two worlds with the same six components are the same world. *)
Lemma World_eq `{!Float32, !EmbeddingClient} (w1 w2 : World) :
  fs w1 = fs w2 → dirs w1 = dirs w2 → fitz_installed w1 = fitz_installed w2 →
  environ w1 = environ w2 → provider w1 = provider w2 → stdout w1 = stdout w2 →
  w1 = w2.
Proof. destruct w1, w2; cbn; by intros -> -> -> -> -> ->. Qed.

Section BuildFailures.
Context `{!Encoding, !Float32, !EmbeddingClient}.

(** The build from an empty store, with documents and the credential, up to
    [add_embeddings]: what it returns and the world it leaves, by whether
    the batch is accepted. *)
Lemma build_embeds_run (w : World) s0 lines0 :
  LocalVectorStore_new 1536 "local_docs.index" w =
    (inr s0, set_stdout (stdout w ++ lines0) w) →
  (0 <? len (doc_meta s0)) && (0 <? ntotal (index s0)) = false →
  loaded_docs w "./my-docs" ≠ [] →
  default "" (environ w !! "OPENAI_API_KEY") ≠ "" →
  let chunks := all_chunks (loaded_docs w "./my-docs") in
  let run := provider_run (provider w) chunks.*2 in
  let log := lines0 ++ ["[INFO] Building vector store from ./my-docs ..."] ++
             loader_log w "./my-docs" ++ dropped_log chunks run.1 in
  ensure_vectorstore_build w =
    match add_embeddings s0 (kept chunks run.1).*1 (kept chunks run.1).*2 with
    | inl e => (inl e, set_provider run.2 (set_stdout (stdout w ++ log) w))
    | inr s =>
        (inr s,
         set_stdout
           (stdout w ++ log ++
            ["[INFO] Vector store saved to disk.";
             "[INFO] Store built with " +:+
               pretty (length (kept chunks run.1).*2) +:+ " chunks."])
           (set_fs (<[index_path s +:+ ".meta.json" := JsonFile (doc_meta s)]>
                      (<[index_path s +:+ ".faiss" := FaissFile (index s)]> (fs w)))
              (set_provider run.2 w)))
    end.
Proof.
  intros Hnew Htest Hdocs Hkey chunks run log. enter_build Hnew Htest.
  fold (loaded_docs w "./my-docs"). rewrite (match_nonempty _ _ _ Hdocs).
  erewrite (M_bind_run (getenv _ _)); [|reflexivity].
  cbn [environ set_stdout]. rewrite bool_decide_false by done.
  erewrite M_bind_run; [|by apply embed_docs_run].
  cbn [provider set_stdout]. fold chunks. fold run. cbv beta iota.
  unfold mbind at 1, M_bind at 1, lift at 1.
  destruct (add_embeddings s0 _ _) as [e|s].
  - f_equal. apply World_eq; try reflexivity.
    cbn [stdout set_stdout set_fs set_provider]. unfold log, loader_log, loaded_docs.
    cbn [stdout set_stdout set_fs set_provider dirs fitz_installed].
    rewrite <-!app_assoc. reflexivity.
  - erewrite M_bind_run; [|by apply save_run].
    erewrite (M_bind_run (print _)); [|reflexivity].
    unfold mret, M_ret. f_equal. apply World_eq; try reflexivity.
    cbn [stdout set_stdout set_fs set_provider]. unfold log, loader_log, loaded_docs.
    cbn [stdout set_stdout set_fs set_provider dirs fitz_installed].
    rewrite <-!app_assoc. reflexivity.
Qed.

Lemma kept_nil_of_failures chunks (answers : list (exn + list F)) :
  Forall (λ r, ∃ e, r = inl e) answers → kept chunks answers = [].
Proof.
  intros Hall. revert chunks. induction Hall as [|r answers [e ->] _ IH];
    intros [|c chunks]; try done.
  unfold kept in *. cbn [zip zip_with]. rewrite omap_cons. cbn. apply IH.
Qed.

Lemma inr_answer_kept chunks (answers : list (exn + list F)) v :
  length answers = length chunks → inr v ∈ answers →
  v ∈ (kept chunks answers).*1.
Proof.
  revert answers. induction chunks as [|c chunks IH]; intros [|r answers] Hlen Hv;
    simplify_eq/=; [by apply elem_of_nil in Hv|].
  unfold kept in *. cbn [zip zip_with]. rewrite omap_cons.
  apply elem_of_cons in Hv as [<-|Hv].
  - cbn. left.
  - unfold kept_entry at 1. destruct r; cbn; [|right]; by apply IH.
Qed.

(** A vector of another length than the index's dimension among the
    provider's answers makes [add_embeddings] raise on the batch that was
    kept. *)
Lemma kept_batch_rejected (s0 : LocalVectorStore) chunks
    (answers : list (exn + list F)) v :
  length answers = length chunks → inr v ∈ answers → len v ≠ d (index s0) →
  ∃ e, add_embeddings s0 (kept chunks answers).*1 (kept chunks answers).*2 = inl e.
Proof.
  intros Hlen Hv%(inr_answer_kept chunks) Hbad; [|done].
  apply add_embeddings_rejects.
  - intros Hnil. rewrite Hnil in Hv. by apply elem_of_nil in Hv.
  - intros Hall. rewrite Forall_forall in Hall. by apply Hall in Hv.
Qed.

(** X15: a vector of another length than 1536 among the provider's answers
    is fatal to the build: after all chunks have been sent to the provider
    [add_embeddings] raises, the exception leaves
    [ensure_vectorstore_build], and nothing is persisted: the files are as
    they were before the call. *)
Theorem build_aborts_on_wrong_dimension (w : World) s0 w0 docs v :
  LocalVectorStore_new 1536 "local_docs.index" w = (inr s0, w0) →
  doc_meta s0 = [] ∨ xb (index s0) = [] →
  d (index s0) = 1536 →
  (DocumentLoader_load "./my-docs" w).1 = inr docs → docs ≠ [] →
  default "" (environ w !! "OPENAI_API_KEY") ≠ "" →
  inr v ∈ (provider_run (provider w) (all_chunks docs).*2).1 →
  len v ≠ 1536 →
  ∃ e w',
    ensure_vectorstore_build w = (inl e, w') ∧
    fs w' = fs w ∧
    provider w' = (provider_run (provider w) (all_chunks docs).*2).2.
Proof.
  intros Hnew Hempty Hd Hdocs%loader_result Hne Hkey Hv Hlen.
  destruct (new_store_only_prints _ _ _ _ _ Hnew) as [lines0 ->].
  rewrite (build_embeds_run w s0 lines0 Hnew); [|by apply reuse_test_fails| |done];
    [|by rewrite Hdocs].
  rewrite Hdocs.
  destruct (kept_batch_rejected s0 (all_chunks docs)
              (provider_run (provider w) (all_chunks docs).*2).1 v) as [e ->];
    [by rewrite provider_run_length, length_fmap|done|congruence|].
  eexists _, _. split; [reflexivity|]. done.
Qed.

(** X16: when every embedding call of the build raises, the build still
    completes: it returns the empty store and persists it, so that both
    artifacts exist afterwards and hold no entry. *)
Theorem build_persists_empty_store (w : World) s0 w0 docs :
  LocalVectorStore_new 1536 "local_docs.index" w = (inr s0, w0) →
  doc_meta s0 = [] → xb (index s0) = [] →
  (DocumentLoader_load "./my-docs" w).1 = inr docs → docs ≠ [] →
  default "" (environ w !! "OPENAI_API_KEY") ≠ "" →
  Forall (λ r, ∃ e, r = inl e) (provider_run (provider w) (all_chunks docs).*2).1 →
  ∃ w',
    ensure_vectorstore_build w = (inr s0, w') ∧
    stored_count (fs w' !! "local_docs.index.faiss") = Some 0 ∧
    stored_count (fs w' !! "local_docs.index.meta.json") = Some 0.
Proof.
  intros Hnew Hmeta Hxb Hdocs%loader_result Hne Hkey Hfail.
  destruct (new_store_only_prints _ _ _ _ _ Hnew) as [lines0 ->].
  assert (index_path s0 = "local_docs.index") as Hpath.
  { revert Hnew. unfold LocalVectorStore_new, __post_init__. run_m.
    destruct (_ || _).
    - intros (? & ? & _ & _ & ->)%load_index_inv. done.
    - by intros [= <-]. }
  rewrite (build_embeds_run w s0 lines0 Hnew);
    [|apply reuse_test_fails; by left| |done]; [|by rewrite Hdocs].
  rewrite Hdocs, (kept_nil_of_failures _ _ Hfail). cbn [fmap list_fmap add_embeddings].
  eexists. split; [reflexivity|]. rewrite Hpath. cbn [fs set_stdout set_fs].
  rewrite lookup_insert_ne by done. rewrite !lookup_insert_eq. cbn.
  unfold ntotal. by rewrite Hxb, Hmeta.
Qed.

End BuildFailures.

(** X15 at work: one chunk, answered by a vector of three components: the
    build raises and leaves the files as they were. *)
Lemma build_aborts_on_wrong_dimension_witness :
  ∃ e w',
    @ensure_vectorstore_build char_encoding _ _ short_vector_world = (inl e, w') ∧
    fs w' = fs short_vector_world.
Proof.
  edestruct (@build_aborts_on_wrong_dimension char_encoding _ _ short_vector_world)
    as (e & w' & Hrun & Hfs & _).
  - reflexivity.
  - left. reflexivity.
  - reflexivity.
  - reflexivity.
  - discriminate.
  - vm_compute. discriminate.
  - vm_compute. left.
  - vm_compute. discriminate.
  - exists e, w'. split; [exact Hrun|exact Hfs].
Defined.

(** X16 at work: one chunk and a provider that raises: the build returns,
    and both artifacts are written with no entry. *)
Lemma build_persists_empty_store_witness :
  ∃ s w',
    @ensure_vectorstore_build char_encoding _ _ unreachable_provider_world = (inr s, w') ∧
    @stored_count int_scalars (fs w' !! "local_docs.index.faiss") = Some 0 ∧
    @stored_count int_scalars (fs w' !! "local_docs.index.meta.json") = Some 0.
Proof.
  edestruct (@build_persists_empty_store char_encoding _ _ unreachable_provider_world)
    as (w' & Hrun & Hfaiss & Hmeta).
  - reflexivity.
  - reflexivity.
  - reflexivity.
  - reflexivity.
  - discriminate.
  - vm_compute. discriminate.
  - vm_compute. repeat constructor. by eexists.
  - eexists _, w'. split; [exact Hrun|]. split; [exact Hfaiss|exact Hmeta].
Defined.

(** ** The reuse branch, and the retrieval entry point over the build *)

Section Retrieval.
Context `{!Encoding, !Float32, !EmbeddingClient}.

(** X17: when something exists at the bare index path and both artifacts
    are readable and hold at least one entry each, the build returns the
    store read from them, with the dimension 1536 it asked for whatever the
    index read has: the provider is not called, no file is written, and
    nothing but the standard output changes, which ends with the line that
    announces the reuse. *)
Theorem build_reuses_loaded_store (w : World) ix m :
  is_Some (fs w !! "local_docs.index") ∨ is_Some (dirs w !! "local_docs.index") →
  fs w !! "local_docs.index.faiss" = Some (FaissFile ix) →
  fs w !! "local_docs.index.meta.json" = Some (JsonFile m) →
  m ≠ [] → xb ix ≠ [] →
  ∃ lines,
    ensure_vectorstore_build w =
      (inr {| dimension := 1536; index_path := "local_docs.index";
              index := ix; doc_meta := m |},
       set_stdout (stdout w ++ lines) w) ∧
    last lines = Some "[INFO] Existing vector store found. Using it.".
Proof.
  intros Hex Hix Hm Hmne Hxne.
  destruct (constructor_loads 1536 "local_docs.index" w ix m Hex Hix Hm) as [w0 Hnew].
  destruct (new_store_only_prints _ _ _ _ _ Hnew) as [lines0 ->].
  exists (lines0 ++ ["[INFO] Existing vector store found. Using it."]). split.
  - unfold ensure_vectorstore_build. cbn zeta. rewrite (M_bind_run _ _ _ _ _ Hnew).
    cbn [doc_meta index].
    assert ((0 <? len m) && (0 <? ntotal ix) = true) as ->.
    { unfold ntotal, len. by destruct m, (xb ix). }
    erewrite (M_bind_run (print _)); [|reflexivity].
    unfold mret, M_ret. f_equal. apply World_eq; try reflexivity.
    cbn [stdout set_stdout]. by rewrite <-app_assoc.
  - by rewrite last_snoc.
Qed.

(** X18: with nothing at the bare index path, a corpus that yields no
    document, or a missing credential, makes every query end in the same
    answer, "No documents found in vector store. Place docs in ./my-docs.":
    the missing credential is not what the caller is told.  Nothing but
    the standard output changes. *)
Theorem search_on_unbuilt_store (w : World) (query : string) (top_k : Z) :
  fs w !! "local_docs.index" = None → dirs w !! "local_docs.index" = None →
  (DocumentLoader_load "./my-docs" w).1 = inr [] ∨
    default "" (environ w !! "OPENAI_API_KEY") = "" →
  ∃ lines,
    search_local_docs query top_k w =
      (inr {| value := "No documents found in vector store. Place docs in ./my-docs." |},
       set_stdout (stdout w ++ lines) w).
Proof.
  intros Hfs Hdirs Hcase.
  destruct (new_store_without_bare_path 1536 _ w Hfs Hdirs)
    as (w0 & s0 & Hnew & Hxb & Hmeta).
  destruct (new_store_only_prints _ _ _ _ _ Hnew) as [lines0 ->].
  assert (∃ lines, ensure_vectorstore_build w =
                     (inr s0, set_stdout (stdout w ++ lines) w)) as [lines Hbuild].
  { destruct (loaded_docs w "./my-docs") as [|doc docs] eqn:Hdocs.
    - eexists. apply build_without_documents_run;
        [done|apply reuse_test_fails; by right|done].
    - destruct Hcase as [Hnone%loader_result|Hkey]; [congruence|].
      eexists. apply build_without_credential_run;
        [done|apply reuse_test_fails; by right|by rewrite Hdocs|done]. }
  exists lines. unfold search_local_docs, try_except.
  rewrite (M_bind_run _ _ _ _ _ Hbuild).
  unfold ntotal. rewrite Hxb. reflexivity.
Qed.

(** X19: when the build is aborted by a vector of another length than 1536
    the caller of [search_local_docs] gets an answer all the same, the
    text of the exception behind "Error in RAG search: ", and the files are
    as they were before the call. *)
Theorem search_reports_failed_build (w : World) s0 w0 docs v
    (query : string) (top_k : Z) :
  LocalVectorStore_new 1536 "local_docs.index" w = (inr s0, w0) →
  doc_meta s0 = [] ∨ xb (index s0) = [] →
  d (index s0) = 1536 →
  (DocumentLoader_load "./my-docs" w).1 = inr docs → docs ≠ [] →
  default "" (environ w !! "OPENAI_API_KEY") ≠ "" →
  inr v ∈ (provider_run (provider w) (all_chunks docs).*2).1 →
  len v ≠ 1536 →
  ∃ e w',
    search_local_docs query top_k w =
      (inr {| value := "Error in RAG search: " +:+ str e |}, w') ∧
    fs w' = fs w.
Proof.
  intros Hnew Hempty Hd Hdocs%loader_result Hne Hkey Hv Hlen.
  destruct (new_store_only_prints _ _ _ _ _ Hnew) as [lines0 ->].
  unfold search_local_docs, try_except. unfold mbind at 1, M_bind at 1.
  rewrite (build_embeds_run w s0 lines0 Hnew); [|by apply reuse_test_fails| |done];
    [|by rewrite Hdocs].
  rewrite Hdocs.
  destruct (kept_batch_rejected s0 (all_chunks docs)
              (provider_run (provider w) (all_chunks docs).*2).1 v) as [e ->];
    [by rewrite provider_run_length, length_fmap|done|congruence|].
  eexists _, _. split; [reflexivity|]. done.
Qed.

(** X20: on a non-empty store, a query vector of another length than the
    index's dimension, or a [top_k] below one, is answered by the bare
    prefix "Error in RAG search: ": the assertion that fails in the index
    carries no text.  The provider has been called for the query. *)
Theorem search_local_docs_bad_arguments (w : World) (query : string) (top_k : Z)
    s w1 v p' :
  ensure_vectorstore_build w = (inr s, w1) →
  ntotal (index s) ≠ 0 →
  default "" (environ w1 !! "OPENAI_API_KEY") ≠ "" →
  embeddings_create (provider w1) query = (inr v, p') →
  len v ≠ d (index s) ∨ top_k ≤ 0 →
  search_local_docs query top_k w =
    (inr {| value := "Error in RAG search: " |}, set_provider p' w1).
Proof.
  intros Hbuild Hn Hkey Hcall Hbad.
  unfold search_local_docs, try_except. rewrite (M_bind_run _ _ _ _ _ Hbuild).
  destruct (Z.eqb_spec (ntotal (index s)) 0); [done|].
  erewrite (M_bind_run (getenv _ _)); [|reflexivity].
  rewrite bool_decide_false by done.
  erewrite (M_bind_run (create_embedding _));
    [|unfold create_embedding; by rewrite Hcall].
  assert (search s v top_k = inl AssertionError) as Hs.
  { destruct (decide (len v = d (index s))) as [Hv|Hv];
      [|by apply search_wrong_dimension].
    destruct Hbad as [?|Hk]; [done|]. unfold search, faiss_search.
    rewrite bool_decide_true by done. destruct (Z.ltb_spec 0 top_k); [lia|].
    reflexivity. }
  unfold mbind at 1, M_bind at 1, lift at 1. rewrite Hs. reflexivity.
Qed.

(** X21: on a store that is consistent and not empty, with the credential
    set, a query vector of the index's dimension and [top_k >= 1], the
    answer is the stripped rendering of the hits of [search], of which
    there is at least one: "No relevant docs found." is not returned. *)
Theorem search_local_docs_renders_hits (w : World) (query : string) (top_k : Z)
    s w1 v p' :
  ensure_vectorstore_build w = (inr s, w1) →
  ntotal (index s) ≠ 0 → consistent s →
  default "" (environ w1 !! "OPENAI_API_KEY") ≠ "" →
  embeddings_create (provider w1) query = (inr v, p') →
  len v = d (index s) → 1 ≤ top_k →
  ∃ r rs,
    search s v top_k = inr (r :: rs) ∧
    search_local_docs query top_k w =
      (inr {| value := strip (render (r :: rs)) |}, set_provider p' w1).
Proof.
  intros Hbuild Hn Hc Hkey Hcall Hv Hk.
  pose proof (kept_rows_nonempty s v top_k Hc Hn Hk) as Hne.
  pose proof (search_inr s v top_k Hv Hk) as Hs.
  destruct (omap _ _) as [|r rs]; [done|]. exists r, rs. split; [done|].
  unfold search_local_docs, try_except. rewrite (M_bind_run _ _ _ _ _ Hbuild).
  destruct (Z.eqb_spec (ntotal (index s)) 0); [done|].
  erewrite (M_bind_run (getenv _ _)); [|reflexivity].
  rewrite bool_decide_false by done.
  erewrite (M_bind_run (create_embedding _));
    [|unfold create_embedding; by rewrite Hcall].
  unfold mbind at 1, M_bind at 1, lift at 1. rewrite Hs. reflexivity.
Qed.

(** X22: on a store whose index holds vectors and whose metadata list is
    empty, the same query is answered "No relevant docs found.": every
    label the index returns is skipped. *)
Theorem search_local_docs_without_metadata (w : World) (query : string)
    (top_k : Z) s w1 v p' :
  ensure_vectorstore_build w = (inr s, w1) →
  ntotal (index s) ≠ 0 → doc_meta s = [] →
  default "" (environ w1 !! "OPENAI_API_KEY") ≠ "" →
  embeddings_create (provider w1) query = (inr v, p') →
  len v = d (index s) → 1 ≤ top_k →
  search_local_docs query top_k w =
    (inr {| value := "No relevant docs found." |}, set_provider p' w1).
Proof.
  intros Hbuild Hn Hm Hkey Hcall Hv Hk.
  unfold search_local_docs, try_except. rewrite (M_bind_run _ _ _ _ _ Hbuild).
  destruct (Z.eqb_spec (ntotal (index s)) 0); [done|].
  erewrite (M_bind_run (getenv _ _)); [|reflexivity].
  rewrite bool_decide_false by done.
  erewrite (M_bind_run (create_embedding _));
    [|unfold create_embedding; by rewrite Hcall].
  unfold mbind at 1, M_bind at 1, lift at 1.
  rewrite (search_without_metadata s v top_k Hm Hv Hk). reflexivity.
Qed.

End Retrieval.

(** X17 at work: three entries on disk and a file at the bare path. *)
Lemma build_reuses_loaded_store_witness :
  ∃ s lines,
    @ensure_vectorstore_build char_encoding _ _ loaded_world_without_key =
      (inr s, set_stdout (stdout loaded_world_without_key ++ lines)
                loaded_world_without_key) ∧
    doc_meta s = example_metas ∧
    last lines = Some "[INFO] Existing vector store found. Using it.".
Proof.
  destruct (@build_reuses_loaded_store char_encoding _ _ loaded_world_without_key
              (index example_store) example_metas)
    as (lines & Hrun & Hlast).
  - left. by eexists.
  - reflexivity.
  - reflexivity.
  - discriminate.
  - discriminate.
  - eexists _, lines. split; [exact Hrun|]. split; [reflexivity|exact Hlast].
Defined.

(** X18 at work: a document, no credential, and the answer speaks of
    missing documents. *)
Lemma search_on_unbuilt_store_witness :
  ∃ lines,
    @search_local_docs char_encoding _ _ "hello" 3 no_key_world =
      (inr {| value := "No documents found in vector store. Place docs in ./my-docs." |},
       set_stdout (stdout no_key_world ++ lines) no_key_world).
Proof.
  apply (@search_on_unbuilt_store char_encoding _ _ no_key_world "hello" 3).
  - reflexivity.
  - reflexivity.
  - right. reflexivity.
Defined.

(** X19 at work: the provider answers the one chunk with three components. *)
Lemma search_reports_failed_build_witness :
  ∃ e w',
    @search_local_docs char_encoding _ _ "hello" 3 short_vector_world =
      (inr {| value := "Error in RAG search: " +:+ str e |}, w') ∧
    fs w' = fs short_vector_world.
Proof.
  eapply (@search_reports_failed_build char_encoding _ _ short_vector_world).
  - reflexivity.
  - left. reflexivity.
  - reflexivity.
  - reflexivity.
  - discriminate.
  - vm_compute. discriminate.
  - vm_compute. left.
  - vm_compute. discriminate.
Defined.

(** X20 at work: a query vector of one component against an index of
    dimension two. *)
Lemma search_local_docs_bad_arguments_witness :
  ∃ w',
    @search_local_docs char_encoding _ _ "alpha" 3 (reusable_world [inr [1]]) =
      (inr {| value := "Error in RAG search: " |}, w').
Proof.
  eexists.
  eapply (@search_local_docs_bad_arguments char_encoding _ _
            (reusable_world [inr [1]]) "alpha" 3).
  - reflexivity.
  - discriminate.
  - vm_compute. discriminate.
  - reflexivity.
  - left. vm_compute. discriminate.
Defined.

(** X21 at work: a query vector of two components and [top_k = 1]. *)
Lemma search_local_docs_renders_hits_witness :
  ∃ (r : @Hit int_scalars) rs w',
    @search_local_docs char_encoding _ _ "alpha" 1 (reusable_world [inr [1; 2]]) =
      (inr {| value := strip (render (r :: rs)) |}, w').
Proof.
  edestruct (@search_local_docs_renders_hits char_encoding _ _
               (reusable_world [inr [1; 2]]) "alpha" 1)
    as (r & rs & _ & Hrun).
  - reflexivity.
  - discriminate.
  - reflexivity.
  - vm_compute. discriminate.
  - reflexivity.
  - reflexivity.
  - lia.
  - eexists r, rs, _. exact Hrun.
Defined.

(** X22 at work: the metadata file holds the empty list. *)
Lemma search_local_docs_without_metadata_witness :
  ∃ w',
    @search_local_docs char_encoding _ _ "alpha" 1 metadata_lost_world =
      (inr {| value := "No relevant docs found." |}, w').
Proof.
  eexists.
  eapply (@search_local_docs_without_metadata char_encoding _ _
            metadata_lost_world "alpha" 1).
  - reflexivity.
  - discriminate.
  - reflexivity.
  - vm_compute. discriminate.
  - reflexivity.
  - reflexivity.
  - lia.
Defined.
